(** * Battleship Carnage: ship kinematics, collision resolution and the
      server's player relay

    A shallow embedding of the TypeScript sources
    [client/game/entities/Ship.ts], [client/game/physics/PhysicsEngine.ts],
    [server/game/GameState.ts] and [server/index.ts].
    Their callers and helpers follow: the utilities of
    [shared/types/Vector], [client/network/NetworkManager.ts],
    [client/game/engine/InputHandler.ts] and the input, camera and network
    pacing of [client/game/engine/GameEngine.ts].

    Conventions of the embedding.
    - A JavaScript [number] is read as a real number: no rounding and no
      overflow.  A division whose divisor is zero, for which IEEE
      arithmetic answers NaN or an infinity, is an explicit error
      ([NonFinite]) of the model, so that no theorem speaks about values
      the reals do not have.
    - Objects mutated in place become records passed from state to state.
    - The two [while] loops that normalise an angle run on fuel; theorems
      about them give the fuel that suffices.
    - [console.log] calls have no effect on any modelled field and are
      left out. *)

From Stdlib Require Import Reals Lra Lia.
From stdpp Require Import base strings gmap pretty.

(** ** Results of fallible computations *)

Inductive result (A : Type) : Type :=
  | Ok (a : A)
  | NonFinite
  | OutOfFuel.
Arguments Ok {A} a.
Arguments NonFinite {A}.
Arguments OutOfFuel {A}.

Definition bind {A B : Type} (m : result A) (k : A -> result B) : result B :=
  match m with
  | Ok a => k a
  | NonFinite => NonFinite
  | OutOfFuel => OutOfFuel
  end.

#[global] Instance result_ret : MRet result := fun A a => Ok a.
#[global] Instance result_bind : MBind result := fun A B k m => bind m k.

(** ** [shared/types/Vector]: the [Vector2] interface *)

Record Vector2 : Type := mkVector2 { x : R; y : R }.

(** ** [Ship.ts] *)

Module Ship.
Local Open Scope R_scope.

Inductive NavalSpeed : Type :=
  | FULL_REVERSE
  | HALF_REVERSE
  | FULL_STOP
  | DEAD_SLOW
  | SLOW
  | HALF
  | FULL.

(** The numeric value of each member of the enum. *)
Definition speedValue (s : NavalSpeed) : R :=
  match s with
  | FULL_REVERSE => -0.6
  | HALF_REVERSE => -0.3
  | FULL_STOP => 0
  | DEAD_SLOW => 0.2
  | SLOW => 0.4
  | HALF => 0.7
  | FULL => 1.0
  end.

Inductive RudderSetting : Type :=
  | HARD_PORT
  | HALF_PORT
  | MIDSHIPS
  | HALF_STARBOARD
  | HARD_STARBOARD.

Definition rudderValue (r : RudderSetting) : R :=
  match r with
  | HARD_PORT => -1.0
  | HALF_PORT => -0.5
  | MIDSHIPS => 0.0
  | HALF_STARBOARD => 0.5
  | HARD_STARBOARD => 1.0
  end.

Record Ship : Type := mkShip {
  position : Vector2;
  rotation : R;
  scale : Vector2;
  velocity : Vector2;
  currentSpeed : R;
  maxSpeed : R;
  rotationSpeed : R;
  acceleration : R;
  health : R;
  name : string;
  targetSpeedSetting : NavalSpeed;
  targetSpeed : R;
  rudderSetting : RudderSetting;
  color : string;
  width : R;
  height : R
}.

(** Assignments to single fields. *)

Definition set_position (p : Vector2) (s : Ship) : Ship :=
  mkShip p (rotation s) (scale s) (velocity s) (currentSpeed s) (maxSpeed s)
    (rotationSpeed s) (acceleration s) (health s) (name s)
    (targetSpeedSetting s) (targetSpeed s) (rudderSetting s) (color s)
    (width s) (height s).

Definition set_rotation (r : R) (s : Ship) : Ship :=
  mkShip (position s) r (scale s) (velocity s) (currentSpeed s) (maxSpeed s)
    (rotationSpeed s) (acceleration s) (health s) (name s)
    (targetSpeedSetting s) (targetSpeed s) (rudderSetting s) (color s)
    (width s) (height s).

Definition set_velocity (v : Vector2) (s : Ship) : Ship :=
  mkShip (position s) (rotation s) (scale s) v (currentSpeed s) (maxSpeed s)
    (rotationSpeed s) (acceleration s) (health s) (name s)
    (targetSpeedSetting s) (targetSpeed s) (rudderSetting s) (color s)
    (width s) (height s).

Definition set_currentSpeed (c : R) (s : Ship) : Ship :=
  mkShip (position s) (rotation s) (scale s) (velocity s) c (maxSpeed s)
    (rotationSpeed s) (acceleration s) (health s) (name s)
    (targetSpeedSetting s) (targetSpeed s) (rudderSetting s) (color s)
    (width s) (height s).

Definition set_health (h : R) (s : Ship) : Ship :=
  mkShip (position s) (rotation s) (scale s) (velocity s) (currentSpeed s)
    (maxSpeed s) (rotationSpeed s) (acceleration s) h (name s)
    (targetSpeedSetting s) (targetSpeed s) (rudderSetting s) (color s)
    (width s) (height s).

Definition set_targetSpeedSetting (n : NavalSpeed) (s : Ship) : Ship :=
  mkShip (position s) (rotation s) (scale s) (velocity s) (currentSpeed s)
    (maxSpeed s) (rotationSpeed s) (acceleration s) (health s) (name s)
    n (targetSpeed s) (rudderSetting s) (color s) (width s) (height s).

Definition set_targetSpeed (t : R) (s : Ship) : Ship :=
  mkShip (position s) (rotation s) (scale s) (velocity s) (currentSpeed s)
    (maxSpeed s) (rotationSpeed s) (acceleration s) (health s) (name s)
    (targetSpeedSetting s) t (rudderSetting s) (color s) (width s) (height s).

Definition set_rudderSetting (r : RudderSetting) (s : Ship) : Ship :=
  mkShip (position s) (rotation s) (scale s) (velocity s) (currentSpeed s)
    (maxSpeed s) (rotationSpeed s) (acceleration s) (health s) (name s)
    (targetSpeedSetting s) (targetSpeed s) r (color s) (width s) (height s).

(** [constructor(config)]: the fields of [config], then the field
    initialisers of the class.  [color] is the entry of the colour table
    the constructor draws with [Math.random()]. *)
Record ShipConfig : Type := mkShipConfig {
  cfg_position : Vector2;
  cfg_rotation : R;
  cfg_scale : Vector2;
  cfg_maxSpeed : R;
  cfg_rotationSpeed : R;
  cfg_acceleration : R;
  cfg_health : R;
  cfg_name : string
}.

Definition newShip (config : ShipConfig) (color : string) : Ship :=
  mkShip (cfg_position config) (cfg_rotation config) (cfg_scale config)
    (mkVector2 0 0) 0 (cfg_maxSpeed config) (cfg_rotationSpeed config)
    (cfg_acceleration config) (cfg_health config) (cfg_name config)
    FULL_STOP 0 MIDSHIPS color 40 80.

(** The player's ship as [GameEngine]'s constructor configures it. *)
Definition playerShip (playerName : string) : Ship :=
  newShip (mkShipConfig (mkVector2 0 0) 0 (mkVector2 1 1) 60 0.15 2.0 100
                        playerName) "#FF3366".

(** The [private readonly] turning constants. *)
Definition MIN_TURN_FACTOR : R := 0.2.
Definition MAX_TURN_FACTOR : R := 1.0.
Definition OPTIMAL_TURN_SPEED : R := 0.6.
Definition MIN_SPEED_FOR_TURNING : R := 0.05.

(** [a / b] on numbers: outside the reals when [b] is zero. *)
Definition jsdiv (a b : R) : result R :=
  if Req_dec_T b 0 then NonFinite else Ok (a / b).

(** [updateSpeed(deltaTime)] *)
Definition updateSpeed (deltaTime : R) (s : Ship) : Ship :=
  let s := set_targetSpeed (speedValue (targetSpeedSetting s) * maxSpeed s) s in
  let speedDiff := targetSpeed s - currentSpeed s in
  if Rgt_dec (Rabs speedDiff) 0.01 then
    let changeRate := acceleration s * 15.0 * deltaTime in
    if Rgt_dec speedDiff 0 then
      set_currentSpeed (Rmin (targetSpeed s) (currentSpeed s + changeRate)) s
    else
      set_currentSpeed (Rmax (targetSpeed s) (currentSpeed s - changeRate)) s
  else s.

(** [while (this.rotation < 0) this.rotation += Math.PI * 2] *)
Fixpoint wrapBelow (fuel : nat) (r : R) : result R :=
  match fuel with
  | O => OutOfFuel
  | S fuel' => if Rlt_dec r 0 then wrapBelow fuel' (r + PI * 2) else Ok r
  end.

(** [while (this.rotation >= Math.PI * 2) this.rotation -= Math.PI * 2] *)
Fixpoint wrapAbove (fuel : nat) (r : R) : result R :=
  match fuel with
  | O => OutOfFuel
  | S fuel' => if Rge_dec r (PI * 2) then wrapAbove fuel' (r - PI * 2) else Ok r
  end.

(** The turn factor of [updateRotation], before and after clamping. *)
Definition turnFactorOf (absSpeed : R) : R :=
  let turnFactor :=
    if Rlt_dec absSpeed OPTIMAL_TURN_SPEED then
      MIN_TURN_FACTOR + (MAX_TURN_FACTOR - MIN_TURN_FACTOR) *
        ((absSpeed - MIN_SPEED_FOR_TURNING) /
         (OPTIMAL_TURN_SPEED - MIN_SPEED_FOR_TURNING))
    else
      MAX_TURN_FACTOR - (MAX_TURN_FACTOR - MIN_TURN_FACTOR) *
        ((absSpeed - OPTIMAL_TURN_SPEED) / (1 - OPTIMAL_TURN_SPEED)) in
  Rmax MIN_TURN_FACTOR (Rmin MAX_TURN_FACTOR turnFactor).

(** [updateRotation(deltaTime)] *)
Definition updateRotation (fuel : nat) (deltaTime : R) (s : Ship)
  : result Ship :=
  q ← jsdiv (currentSpeed s) (maxSpeed s);
  let absSpeed := Rabs q in
  if Rlt_dec absSpeed MIN_SPEED_FOR_TURNING then Ok s
  else
    let turnFactor := turnFactorOf absSpeed in
    let directionFactor := if Rge_dec (currentSpeed s) 0 then 1 else -1 in
    let rotationAmount :=
      rudderValue (rudderSetting s) * rotationSpeed s * turnFactor *
      directionFactor * deltaTime * 5.0 in
    if Req_dec_T rotationAmount 0 then Ok s
    else
      r1 ← wrapBelow fuel (rotation s + rotationAmount);
      r2 ← wrapAbove fuel r1;
      Ok (set_rotation r2 s).

(** [applyDrag(deltaTime)] *)
Definition applyDrag (deltaTime : R) (s : Ship) : Ship :=
  match targetSpeedSetting s with
  | FULL_STOP =>
      let dragFactor := 0.1 in
      if Rgt_dec (Rabs (currentSpeed s)) 0.01 then
        let drag := currentSpeed s * dragFactor * deltaTime in
        set_currentSpeed (currentSpeed s - drag) s
      else set_currentSpeed 0 s
  | _ => s
  end.

(** [update(deltaTime)] *)
Definition update (fuel : nat) (deltaTime : R) (s : Ship) : result Ship :=
  let s := updateSpeed deltaTime s in
  s ← updateRotation fuel deltaTime s;
  let s :=
    set_velocity
      (mkVector2 (sin (rotation s) * currentSpeed s)
                 (- cos (rotation s) * currentSpeed s)) s in
  let s :=
    set_position
      (mkVector2 (x (position s) + x (velocity s) * deltaTime)
                 (y (position s) + y (velocity s) * deltaTime)) s in
  Ok (applyDrag deltaTime s).

(** [setSpeedSetting(setting)] *)
Definition setSpeedSetting (setting : NavalSpeed) (s : Ship) : Ship :=
  set_targetSpeedSetting setting s.

(** [increaseSpeedSetting()] *)
Definition increaseSpeedSetting (s : Ship) : Ship :=
  match targetSpeedSetting s with
  | FULL_REVERSE => setSpeedSetting HALF_REVERSE s
  | HALF_REVERSE => setSpeedSetting FULL_STOP s
  | FULL_STOP => setSpeedSetting DEAD_SLOW s
  | DEAD_SLOW => setSpeedSetting SLOW s
  | SLOW => setSpeedSetting HALF s
  | HALF => setSpeedSetting FULL s
  | FULL => s
  end.

(** [decreaseSpeedSetting()] *)
Definition decreaseSpeedSetting (s : Ship) : Ship :=
  match targetSpeedSetting s with
  | FULL => setSpeedSetting HALF s
  | HALF => setSpeedSetting SLOW s
  | SLOW => setSpeedSetting DEAD_SLOW s
  | DEAD_SLOW => setSpeedSetting FULL_STOP s
  | FULL_STOP => setSpeedSetting HALF_REVERSE s
  | HALF_REVERSE => setSpeedSetting FULL_REVERSE s
  | FULL_REVERSE => s
  end.

(** [setRudderSetting(setting)] *)
Definition setRudderSetting (setting : RudderSetting) (s : Ship) : Ship :=
  set_rudderSetting setting s.

(** [turnRudderPort()] *)
Definition turnRudderPort (s : Ship) : Ship :=
  match rudderSetting s with
  | HARD_STARBOARD => setRudderSetting HALF_STARBOARD s
  | HALF_STARBOARD => setRudderSetting MIDSHIPS s
  | MIDSHIPS => setRudderSetting HALF_PORT s
  | HALF_PORT => setRudderSetting HARD_PORT s
  | HARD_PORT => s
  end.

(** [turnRudderStarboard()] *)
Definition turnRudderStarboard (s : Ship) : Ship :=
  match rudderSetting s with
  | HARD_PORT => setRudderSetting HALF_PORT s
  | HALF_PORT => setRudderSetting MIDSHIPS s
  | MIDSHIPS => setRudderSetting HALF_STARBOARD s
  | HALF_STARBOARD => setRudderSetting HARD_STARBOARD s
  | HARD_STARBOARD => s
  end.

(** [Math.floor] *)
Definition floor (r : R) : R := IZR (Int_part r).

(** [takeDamage(amount)]: the ship after the call and the returned flag. *)
Definition takeDamage (amount : R) (s : Ship) : Ship * bool :=
  let s := set_health (health s - amount) s in
  (s, if Rle_dec (health s) 0 then true else false).

(** [getSpeedSettingName()]; the [default] branch of the [switch] is out
    of reach of the seven members of the enum. *)
Definition getSpeedSettingName (s : Ship) : string :=
  match targetSpeedSetting s with
  | FULL_REVERSE => "FULL REVERSE"
  | HALF_REVERSE => "HALF REVERSE"
  | FULL_STOP => "FULL STOP"
  | DEAD_SLOW => "DEAD SLOW"
  | SLOW => "SLOW"
  | HALF => "HALF"
  | FULL => "FULL"
  end.

(** [getRudderSettingName()] *)
Definition getRudderSettingName (s : Ship) : string :=
  match rudderSetting s with
  | HARD_PORT => "HARD PORT"
  | HALF_PORT => "HALF PORT"
  | MIDSHIPS => "MIDSHIPS"
  | HALF_STARBOARD => "HALF STARBOARD"
  | HARD_STARBOARD => "HARD STARBOARD"
  end.

(** [centerRudder()] *)
Definition centerRudder (s : Ship) : Ship := setRudderSetting MIDSHIPS s.

(** The legacy [increaseSpeed(deltaTime)] and [decreaseSpeed(deltaTime)]. *)
Definition increaseSpeed (deltaTime : R) (s : Ship) : Ship :=
  increaseSpeedSetting s.

Definition decreaseSpeed (deltaTime : R) (s : Ship) : Ship :=
  decreaseSpeedSetting s.

(** The legacy [rotate(amount)]. *)
Definition rotate (amount : R) (s : Ship) : Ship :=
  if Rlt_dec amount 0 then turnRudderPort s
  else if Rgt_dec amount 0 then turnRudderStarboard s
  else centerRudder s.

End Ship.

(** ** [PhysicsEngine.ts] *)

Module PhysicsEngine.
Import Ship.
Local Open Scope R_scope.

(** The collision radius both methods compute:
    [Math.max(entity.width, entity.height) / 2]. *)
Definition radius (e : Ship) : R := Rmax (width e) (height e) / 2.

(** [checkCollision(entityA, entityB)] *)
Definition checkCollision (entityA entityB : Ship) : bool :=
  let dx := x (position entityA) - x (position entityB) in
  let dy := y (position entityA) - y (position entityB) in
  let distance := sqrt (dx * dx + dy * dy) in
  let radiusA := radius entityA in
  let radiusB := radius entityB in
  if Rlt_dec distance (radiusA + radiusB) then true else false.

(** The distance between the two ships as [resolveCollision] measures it. *)
Definition distanceOf (entityA entityB : Ship) : R :=
  let dx := x (position entityB) - x (position entityA) in
  let dy := y (position entityB) - y (position entityA) in
  sqrt (dx * dx + dy * dy).

(** The relative velocity along the collision normal, [velAlongNormal]. *)
Definition velAlongNormal (entityA entityB : Ship) : result R :=
  let dx := x (position entityB) - x (position entityA) in
  let dy := y (position entityB) - y (position entityA) in
  let distance := distanceOf entityA entityB in
  nx ← jsdiv dx distance;
  ny ← jsdiv dy distance;
  let rvx := x (velocity entityB) - x (velocity entityA) in
  let rvy := y (velocity entityB) - y (velocity entityA) in
  Ok (rvx * nx + rvy * ny).

(** [resolveCollision(entityA, entityB)]: both ships after the call. *)
Definition resolveCollision (entityA entityB : Ship) : result (Ship * Ship) :=
  let dx := x (position entityB) - x (position entityA) in
  let dy := y (position entityB) - y (position entityA) in
  let distance := sqrt (dx * dx + dy * dy) in
  nx ← jsdiv dx distance;
  ny ← jsdiv dy distance;
  let rvx := x (velocity entityB) - x (velocity entityA) in
  let rvy := y (velocity entityB) - y (velocity entityA) in
  let velAlongNormal := rvx * nx + rvy * ny in
  if Rgt_dec velAlongNormal 0 then Ok (entityA, entityB)
  else
    let restitution := 0.2 in
    let impulseScalar := - (1 + restitution) * velAlongNormal in
    let impulseX := impulseScalar * nx in
    let impulseY := impulseScalar * ny in
    let entityA :=
      set_velocity (mkVector2 (x (velocity entityA) - impulseX)
                              (y (velocity entityA) - impulseY)) entityA in
    let entityB :=
      set_velocity (mkVector2 (x (velocity entityB) + impulseX)
                              (y (velocity entityB) + impulseY)) entityB in
    let percent := 0.2 in
    let slop := 0.01 in
    let radiusA := radius entityA in
    let radiusB := radius entityB in
    let penetration := (radiusA + radiusB) - distance in
    let '(entityA, entityB) :=
      if Rgt_dec penetration slop then
        let correctionX := nx * penetration * percent in
        let correctionY := ny * penetration * percent in
        (set_position (mkVector2 (x (position entityA) - correctionX / 2)
                                 (y (position entityA) - correctionY / 2))
                      entityA,
         set_position (mkVector2 (x (position entityB) + correctionX / 2)
                                 (y (position entityB) + correctionY / 2))
                      entityB)
      else (entityA, entityB) in
    let collisionForce := Rabs velAlongNormal * 5 in
    if Rgt_dec collisionForce 1 then
      let damage := floor collisionForce in
      Ok ((takeDamage damage entityA).1, (takeDamage damage entityB).1)
    else Ok (entityA, entityB).

End PhysicsEngine.

(** ** [PhysicsEngine.ts], continued: [update] and its two passes *)

Module PhysicsEngineUpdate.
Import Ship PhysicsEngine.
Local Open Scope R_scope.

(** The world boundaries, [worldBounds]. *)
Definition minX : R := -5000.
Definition maxX : R := 5000.
Definition minY : R := -5000.
Definition maxY : R := 5000.

(** The body of the loop of [enforceWorldBoundaries]: one entity. *)
Definition enforceEntity (entity : Ship) : Ship :=
  let entity :=
    if Rlt_dec (x (position entity)) minX then
      set_velocity (mkVector2 0 (y (velocity entity)))
        (set_position (mkVector2 minX (y (position entity))) entity)
    else if Rgt_dec (x (position entity)) maxX then
      set_velocity (mkVector2 0 (y (velocity entity)))
        (set_position (mkVector2 maxX (y (position entity))) entity)
    else entity in
  if Rlt_dec (y (position entity)) minY then
    set_velocity (mkVector2 (x (velocity entity)) 0)
      (set_position (mkVector2 (x (position entity)) minY) entity)
  else if Rgt_dec (y (position entity)) maxY then
    set_velocity (mkVector2 (x (velocity entity)) 0)
      (set_position (mkVector2 (x (position entity)) maxY) entity)
  else entity.

(** [enforceWorldBoundaries(entities)]; the array holds distinct ships. *)
Definition enforceWorldBoundaries (entities : list Ship) : list Ship :=
  enforceEntity <$> entities.

(** A loop over [l] whose body may leave the reals. *)
Fixpoint forEach {A B : Type} (body : B -> A -> result B) (l : list A) (b : B)
  : result B :=
  match l with
  | [] => Ok b
  | a :: l => b ← body b a; forEach body l b
  end.

(** The body of the inner loop of [detectCollisions]: the pair of the
    entities at [i] and [j], updated in place when they collide. *)
Definition collidePair (i j : nat) (entities : list Ship)
  : result (list Ship) :=
  match entities !! i, entities !! j with
  | Some entityA, Some entityB =>
      if checkCollision entityA entityB then
        ab ← resolveCollision entityA entityB;
        Ok (<[j := ab.2]> (<[i := ab.1]> entities))
      else Ok entities
  | _, _ => Ok entities
  end.

(** [detectCollisions(entities)]: [i] from 0, [j] from [i + 1], both below
    [entityCount]. *)
Definition detectCollisions (entities : list Ship) : result (list Ship) :=
  let entityCount := length entities in
  forEach
    (fun entities i =>
       forEach (fun entities j => collidePair i j entities)
               (seq (i + 1) (entityCount - (i + 1))) entities)
    (seq 0 entityCount) entities.

(** [update(entities, deltaTime)] *)
Definition update (entities : list Ship) (deltaTime : R)
  : result (list Ship) :=
  detectCollisions (enforceWorldBoundaries entities).

End PhysicsEngineUpdate.

(** ** [server/game/GameState.ts] *)

Module GameState.
Local Open Scope R_scope.

Record Player : Type := mkPlayer {
  id : string;
  name : string;
  position : Vector2;
  rotation : R;
  health : R;
  score : R
}.

Definition set_position (p : Vector2) (pl : Player) : Player :=
  mkPlayer (id pl) (name pl) p (rotation pl) (health pl) (score pl).

Definition set_rotation (r : R) (pl : Player) : Player :=
  mkPlayer (id pl) (name pl) (position pl) r (health pl) (score pl).

(** The class has one private field, the map from socket ids to players. *)
Record GameState : Type := mkGameState { players : gmap string Player }.

(** [new GameState()] *)
Definition empty : GameState := mkGameState ∅.

(** The template literal [`Player ${this.players.size + 1}`]. *)
Definition defaultName (gs : GameState) : string :=
  "Player " +:+ pretty (size (players gs) + 1)%nat.

(** [addPlayer(socket, name)]: the state after the call and the created
    player.  [socketId] is [socket.id]; [rx] and [ry] are the results of
    the two calls of [Math.random()], in the order of evaluation. *)
Definition addPlayer (socketId name : string) (rx ry : R) (gs : GameState)
  : GameState * Player :=
  let player :=
    mkPlayer socketId
             (if decide (name = "") then defaultName gs else name)
             (mkVector2 (rx * 1000 - 500) (ry * 1000 - 500))
             0 100 0 in
  (mkGameState (<[socketId := player]> (players gs)), player).

(** [removePlayer(socketId)] *)
Definition removePlayer (socketId : string) (gs : GameState)
  : GameState * bool :=
  (mkGameState (delete socketId (players gs)),
   bool_decide (is_Some (players gs !! socketId))).

(** [getPlayer(socketId)]; [None] is [undefined]. *)
Definition getPlayer (socketId : string) (gs : GameState) : option Player :=
  players gs !! socketId.

(** [getAllPlayers()]; the order of the array is not modelled. *)
Definition getAllPlayers (gs : GameState) : list Player :=
  (map_to_list (players gs)).*2.

(** [updatePlayerPosition(socketId, position)] *)
Definition updatePlayerPosition (socketId : string) (position : Vector2)
  (gs : GameState) : GameState * bool :=
  match players gs !! socketId with
  | None => (gs, false)
  | Some player =>
      (mkGameState (<[socketId := set_position position player]> (players gs)),
       true)
  end.

(** [updatePlayerRotation(socketId, rotation)] *)
Definition updatePlayerRotation (socketId : string) (rotation : R)
  (gs : GameState) : GameState * bool :=
  match players gs !! socketId with
  | None => (gs, false)
  | Some player =>
      (mkGameState (<[socketId := set_rotation rotation player]> (players gs)),
       true)
  end.

(** The states the singleton can be in: the class keeps its map private,
    so every state is produced from the empty one by its methods. *)
Inductive reachable : GameState -> Prop :=
  | reach_empty : reachable empty
  | reach_add socketId name rx ry gs :
      reachable gs -> reachable (addPlayer socketId name rx ry gs).1
  | reach_remove socketId gs :
      reachable gs -> reachable (removePlayer socketId gs).1
  | reach_position socketId position gs :
      reachable gs -> reachable (updatePlayerPosition socketId position gs).1
  | reach_rotation socketId rotation gs :
      reachable gs -> reachable (updatePlayerRotation socketId rotation gs).1.

End GameState.

(** ** [server/index.ts]: the socket handlers *)

Module Server.
Import GameState.

(** The events the server emits, with their payloads. *)
Inductive Event : Type :=
  | player_joined (player : Player)
  | player_new (player : Player)
  | players_list (all : list Player)
  | player_moved (id : string) (position : Vector2)
  | player_rotated (id : string) (rotation : R)
  | player_left (id : string).

(** [socket.emit] answers the sender; [socket.broadcast.emit] addresses
    every connected socket but the sender. *)
Inductive Emit : Type :=
  | emit (e : Event)
  | broadcast_emit (e : Event).

(** Who receives an emission of the socket [sender], among the connected
    sockets (Socket.IO's meaning of the [broadcast] flag). *)
Definition recipients (connected : list string) (sender : string) (m : Emit)
  : list string :=
  match m with
  | emit _ => [sender]
  | broadcast_emit _ => filter (fun c => c ≠ sender) connected
  end.

(** [socket.on('player:join', ...)]; [name] is [playerData.name]. *)
Definition on_player_join (socketId name : string) (rx ry : R)
  (gs : GameState) : GameState * list Emit :=
  let '(gs, player) := addPlayer socketId name rx ry gs in
  (gs, [emit (player_joined player);
        broadcast_emit (player_new player);
        emit (players_list (getAllPlayers gs))]).

(** [socket.on('player:move', ...)] *)
Definition on_player_move (socketId : string) (position : Vector2)
  (gs : GameState) : GameState * list Emit :=
  let '(gs, updated) := updatePlayerPosition socketId position gs in
  if updated then (gs, [broadcast_emit (player_moved socketId position)])
  else (gs, []).

(** [socket.on('player:rotate', ...)] *)
Definition on_player_rotate (socketId : string) (rotation : R)
  (gs : GameState) : GameState * list Emit :=
  let '(gs, updated) := updatePlayerRotation socketId rotation gs in
  if updated then (gs, [broadcast_emit (player_rotated socketId rotation)])
  else (gs, []).

(** [socket.on('disconnect', ...)] *)
Definition on_disconnect (socketId : string) (gs : GameState)
  : GameState * list Emit :=
  let '(gs, removed) := removePlayer socketId gs in
  if removed then (gs, [broadcast_emit (player_left socketId)])
  else (gs, []).

(** What a connected socket can send, with the socket's id. *)
Inductive ClientEvent : Type :=
  | player_join (socketId name : string) (rx ry : R)
  | player_move (socketId : string) (position : Vector2)
  | player_rotate (socketId : string) (rotation : R)
  | disconnect (socketId : string).

(** The handler [io.on('connection', ...)] registers for the event. *)
Definition handle (gs : GameState) (ev : ClientEvent)
  : GameState * list Emit :=
  match ev with
  | player_join socketId name rx ry => on_player_join socketId name rx ry gs
  | player_move socketId position => on_player_move socketId position gs
  | player_rotate socketId rotation => on_player_rotate socketId rotation gs
  | disconnect socketId => on_disconnect socketId gs
  end.

(** The game state after the server has handled [events], oldest first,
    starting from [new GameState()]. *)
Definition serve (events : list ClientEvent) : GameState :=
  foldl (fun gs ev => (handle gs ev).1) empty events.

End Server.

(** * The vocabulary of the statements *)

Section ShipVocabulary.
Import Ship PhysicsEngine.
Local Open Scope R_scope.

(** The speed ladder, lowest rung first, and the rung of a setting. *)
Definition ladder : list NavalSpeed :=
  [FULL_REVERSE; HALF_REVERSE; FULL_STOP; DEAD_SLOW; SLOW; HALF; FULL].

Definition rung (n : NavalSpeed) : nat :=
  match n with
  | FULL_REVERSE => 0
  | HALF_REVERSE => 1
  | FULL_STOP => 2
  | DEAD_SLOW => 3
  | SLOW => 4
  | HALF => 5
  | FULL => 6
  end.

(** The rudder positions, hard port first. *)
Definition rudderRung (r : RudderSetting) : nat :=
  match r with
  | HARD_PORT => 0
  | HALF_PORT => 1
  | MIDSHIPS => 2
  | HALF_STARBOARD => 3
  | HARD_STARBOARD => 4
  end.






(** Two ships one unit apart, the second sailing away from the first. *)
Definition sternShip : Ship := playerShip "Stern".
Definition bowShip : Ship :=
  set_velocity (mkVector2 2 0)
    (set_position (mkVector2 1 0) (playerShip "Bow")).


End ShipVocabulary.

Section KinematicsVocabulary.
Import Ship.
Local Open Scope R_scope.






End KinematicsVocabulary.

Section CollisionVocabulary.
Import Ship PhysicsEngine PhysicsEngineUpdate.
Local Open Scope R_scope.




(** An entity inside the world boundaries. *)
Definition withinWorld (entity : Ship) : Prop :=
  minX <= x (position entity) <= maxX /\ minY <= y (position entity) <= maxY.





(** A ship that has sailed past the eastern boundary. *)
Definition strayShip : Ship :=
  set_velocity (mkVector2 3 4)
    (set_position (mkVector2 6000 100) (playerShip "Stray")).

End CollisionVocabulary.

(** ** [shared/types/Vector]: the [Vector] utility functions *)

Module Vector.
Local Open Scope R_scope.

(** [add(a, b)] *)
Definition add (a b : Vector2) : Vector2 := mkVector2 (x a + x b) (y a + y b).

(** [subtract(a, b)] *)
Definition subtract (a b : Vector2) : Vector2 :=
  mkVector2 (x a - x b) (y a - y b).



(** [magnitude(v)] *)
Definition magnitude (v : Vector2) : R := sqrt (x v * x v + y v * y v).


(** [dot(a, b)] *)
Definition dot (a b : Vector2) : R := x a * x b + y a * y b.

(** [distance(a, b)] *)
Definition distance (a b : Vector2) : R :=
  let dx := x b - x a in
  let dy := y b - y a in
  sqrt (dx * dx + dy * dy).

(** [fromAngle(angle, magnitude)] *)
Definition fromAngle (angle magnitude : R) : Vector2 :=
  mkVector2 (cos angle * magnitude) (sin angle * magnitude).


End Vector.

(** ** [client/network/NetworkManager.ts] *)

Module NetworkManager.
Import GameState.

(** The callbacks the handlers invoke, when they are set. *)
Inductive Call : Type :=
  | call_onPlayerJoined (player : Player)
  | call_onPlayerLeft (playerId : string)
  | call_onPlayerMoved (playerId : string) (position : Vector2)
  | call_onPlayerRotated (playerId : string) (rotation : R)
  | call_onPlayersList (players : list Player).

(** The manager's fields; a callback field is [true] when it is not
    [null].  The [Player] interface is the server's. *)
Record NetworkManager : Type := mkNetworkManager {
  players : gmap string Player;
  localPlayerId : option string;
  onPlayerJoinedCallback : bool;
  onPlayerLeftCallback : bool;
  onPlayerMovedCallback : bool;
  onPlayerRotatedCallback : bool;
  onPlayersListCallback : bool
}.

Definition set_players (m : gmap string Player) (nm : NetworkManager)
  : NetworkManager :=
  mkNetworkManager m (localPlayerId nm) (onPlayerJoinedCallback nm)
    (onPlayerLeftCallback nm) (onPlayerMovedCallback nm)
    (onPlayerRotatedCallback nm) (onPlayersListCallback nm).

Definition set_localPlayerId (i : option string) (nm : NetworkManager)
  : NetworkManager :=
  mkNetworkManager (players nm) i (onPlayerJoinedCallback nm)
    (onPlayerLeftCallback nm) (onPlayerMovedCallback nm)
    (onPlayerRotatedCallback nm) (onPlayersListCallback nm).

(** The fields as the class initialises them, before any callback is
    set. *)
Definition initial : NetworkManager :=
  mkNetworkManager ∅ None false false false false false.

(** [if (callback) callback(...)] *)
Definition invoke (callback : bool) (c : Call) : list Call :=
  if callback then [c] else [].

(** [socket.on('player:joined', ...)] *)
Definition on_joined (player : Player) (nm : NetworkManager)
  : NetworkManager * list Call :=
  let nm := set_localPlayerId (Some (id player)) nm in
  let nm := set_players (<[id player := player]> (players nm)) nm in
  (nm, invoke (onPlayerJoinedCallback nm) (call_onPlayerJoined player)).

(** [socket.on('player:new', ...)] *)
Definition on_new (player : Player) (nm : NetworkManager)
  : NetworkManager * list Call :=
  let nm := set_players (<[id player := player]> (players nm)) nm in
  (nm, invoke (onPlayerJoinedCallback nm) (call_onPlayerJoined player)).

(** [socket.on('player:left', ...)] *)
Definition on_left (playerId : string) (nm : NetworkManager)
  : NetworkManager * list Call :=
  let nm := set_players (delete playerId (players nm)) nm in
  (nm, invoke (onPlayerLeftCallback nm) (call_onPlayerLeft playerId)).

(** [socket.on('player:moved', ...)] *)
Definition on_moved (playerId : string) (position : Vector2)
  (nm : NetworkManager) : NetworkManager * list Call :=
  match players nm !! playerId with
  | Some player =>
      (set_players (<[playerId := set_position position player]> (players nm))
                   nm,
       invoke (onPlayerMovedCallback nm) (call_onPlayerMoved playerId position))
  | None => (nm, [])
  end.

(** [socket.on('player:rotated', ...)] *)
Definition on_rotated (playerId : string) (rotation : R)
  (nm : NetworkManager) : NetworkManager * list Call :=
  match players nm !! playerId with
  | Some player =>
      (set_players (<[playerId := set_rotation rotation player]> (players nm))
                   nm,
       invoke (onPlayerRotatedCallback nm)
              (call_onPlayerRotated playerId rotation))
  | None => (nm, [])
  end.

(** [socket.on('players:list', ...)] *)
Definition on_list (all : list Player) (nm : NetworkManager)
  : NetworkManager * list Call :=
  let nm :=
    set_players
      (foldl (fun m player =>
                if decide (Some (id player) <> localPlayerId nm)
                then <[id player := player]> m else m)
             (players nm) all) nm in
  (nm, invoke (onPlayersListCallback nm) (call_onPlayersList all)).

(** The handler registered for each event of the server. *)
Definition receive (nm : NetworkManager) (e : Server.Event)
  : NetworkManager * list Call :=
  match e with
  | Server.player_joined player => on_joined player nm
  | Server.player_new player => on_new player nm
  | Server.players_list all => on_list all nm
  | Server.player_moved playerId position => on_moved playerId position nm
  | Server.player_rotated playerId rotation => on_rotated playerId rotation nm
  | Server.player_left playerId => on_left playerId nm
  end.

(** [getAllPlayers()]; the order of the array is not modelled. *)
Definition getAllPlayers (nm : NetworkManager) : list Player :=
  (map_to_list (players nm)).*2.

(** [getLocalPlayer()]; [None] is [null].  An empty id is falsy. *)
Definition getLocalPlayer (nm : NetworkManager) : option Player :=
  match localPlayerId nm with
  | None => None
  | Some i => if decide (i = "") then None else players nm !! i
  end.

End NetworkManager.

(** ** [client/game/engine/InputHandler.ts] *)

Module InputHandler.

Record InputState : Type := mkInputState {
  throttleUp : bool;
  throttleDown : bool;
  turnLeft : bool;
  turnRight : bool;
  centerRudder : bool;
  fire : bool
}.

(** The state the class starts with: nothing pressed. *)
Definition released : InputState :=
  mkInputState false false false false false false.

(** [updateInputState(keyCode, isPressed)] on the field [inputState]. *)
Definition updateInputState (keyCode : string) (isPressed : bool)
  (st : InputState) : InputState :=
  if decide (keyCode = "KeyW") then
    if negb (eqb (throttleUp st) isPressed)
    then mkInputState isPressed (throttleDown st) (turnLeft st) (turnRight st)
                      (centerRudder st) (fire st)
    else st
  else if decide (keyCode = "KeyS") then
    if negb (eqb (throttleDown st) isPressed)
    then mkInputState (throttleUp st) isPressed (turnLeft st) (turnRight st)
                      (centerRudder st) (fire st)
    else st
  else if decide (keyCode = "KeyA") then
    if negb (eqb (turnLeft st) isPressed)
    then mkInputState (throttleUp st) (throttleDown st) isPressed (turnRight st)
                      (centerRudder st) (fire st)
    else st
  else if decide (keyCode = "KeyD") then
    if negb (eqb (turnRight st) isPressed)
    then mkInputState (throttleUp st) (throttleDown st) (turnLeft st) isPressed
                      (centerRudder st) (fire st)
    else st
  else if decide (keyCode = "Space") then
    if negb (eqb (centerRudder st) isPressed)
    then mkInputState (throttleUp st) (throttleDown st) (turnLeft st)
                      (turnRight st) isPressed (fire st)
    else st
  else st.

(** [handleKeyDown(event)] and [handleKeyUp(event)], on [event.code]. *)
Definition handleKeyDown (code : string) (st : InputState) : InputState :=
  updateInputState code true st.

Definition handleKeyUp (code : string) (st : InputState) : InputState :=
  updateInputState code false st.

(** [handleMouseDown(event)] and [handleMouseUp(event)], on
    [event.button]. *)
Definition handleMouseDown (button : Z) (st : InputState) : InputState :=
  if decide (button = 0%Z)
  then mkInputState (throttleUp st) (throttleDown st) (turnLeft st)
                    (turnRight st) (centerRudder st) true
  else st.

Definition handleMouseUp (button : Z) (st : InputState) : InputState :=
  if decide (button = 0%Z)
  then mkInputState (throttleUp st) (throttleDown st) (turnLeft st)
                    (turnRight st) (centerRudder st) false
  else st.

(** [getInput()]: a copy of the state. *)
Definition getInput (st : InputState) : InputState := st.

End InputHandler.

(** ** [client/game/engine/GameEngine.ts]: input, camera, network pacing *)

Module GameEngine.
Import InputHandler.
Local Open Scope R_scope.

(** The fields the three methods below read and write. *)
Record GameEngine : Type := mkGameEngine {
  playerShip : Ship.Ship;
  cameraPosition : Vector2;
  lastNetworkUpdate : R;
  lastThrottleUp : bool;
  lastThrottleDown : bool;
  lastTurnLeft : bool;
  lastTurnRight : bool;
  lastCenterRudder : bool
}.


(** The engine as its constructor leaves these fields. *)
Definition newGameEngine (playerName : string) : GameEngine :=
  mkGameEngine (Ship.playerShip playerName) (mkVector2 0 0) 0
    false false false false false.

Definition set_playerShip (s : Ship.Ship) (ge : GameEngine) : GameEngine :=
  mkGameEngine s (cameraPosition ge) (lastNetworkUpdate ge)
    (lastThrottleUp ge) (lastThrottleDown ge) (lastTurnLeft ge)
    (lastTurnRight ge) (lastCenterRudder ge).

(** [handleInput(deltaTime)], on the input [this.inputHandler.getInput()]
    returned. *)
Definition handleInput (input : InputState) (ge : GameEngine) : GameEngine :=
  let ge :=
    if throttleUp input && negb (lastThrottleUp ge) then
      set_playerShip (Ship.increaseSpeedSetting (playerShip ge)) ge
    else if throttleDown input && negb (lastThrottleDown ge) then
      set_playerShip (Ship.decreaseSpeedSetting (playerShip ge)) ge
    else ge in
  let ge :=
    if turnLeft input && negb (lastTurnLeft ge) then
      set_playerShip (Ship.turnRudderPort (playerShip ge)) ge
    else if turnRight input && negb (lastTurnRight ge) then
      set_playerShip (Ship.turnRudderStarboard (playerShip ge)) ge
    else if centerRudder input && negb (lastCenterRudder ge) then
      set_playerShip (Ship.centerRudder (playerShip ge)) ge
    else ge in
  mkGameEngine (playerShip ge) (cameraPosition ge) (lastNetworkUpdate ge)
    (throttleUp input) (throttleDown input) (turnLeft input)
    (turnRight input) (centerRudder input).




End GameEngine.

Section ServerVocabulary.
Import GameState Server.

(** Whether the socket [socketId] has joined and not disconnected since,
    in the events [events], oldest first. *)
Definition inGame (socketId : string) (events : list ClientEvent) : bool :=
  foldl
    (fun joined ev =>
       match ev with
       | player_join s _ _ _ => if decide (s = socketId) then true else joined
       | disconnect s => if decide (s = socketId) then false else joined
       | _ => joined
       end)
    false events.

End ServerVocabulary.

Section ClientVocabulary.
Import GameState.

(** The events of [out] that reach the sender, in order. *)
Definition toSender (out : list Server.Emit) : list Server.Event :=
  omap (fun m => match m with
                 | Server.emit e => Some e
                 | Server.broadcast_emit _ => None
                 end) out.

(** The events of [out] that reach every other socket, in order. *)
Definition toOthers (out : list Server.Emit) : list Server.Event :=
  omap (fun m => match m with
                 | Server.emit _ => None
                 | Server.broadcast_emit e => Some e
                 end) out.

(** A client handling the events [events] in order. *)
Definition receiveAll (nm : NetworkManager.NetworkManager)
  (events : list Server.Event) : NetworkManager.NetworkManager :=
  foldl (fun nm e => (NetworkManager.receive nm e).1) nm events.

(** What the key with code [code] does to the ship when [handleInput]
    sees it newly pressed. *)
Definition keyAction (code : string) (s : Ship.Ship) : Ship.Ship :=
  if decide (code = "KeyW") then Ship.increaseSpeedSetting s
  else if decide (code = "KeyS") then Ship.decreaseSpeedSetting s
  else if decide (code = "KeyA") then Ship.turnRudderPort s
  else if decide (code = "KeyD") then Ship.turnRudderStarboard s
  else if decide (code = "Space") then Ship.centerRudder s
  else s.

(** An engine that saw no key pressed on its last frame. *)
Definition sawNothing (ge : GameEngine.GameEngine) : Prop :=
  GameEngine.lastThrottleUp ge = false
  /\ GameEngine.lastThrottleDown ge = false
  /\ GameEngine.lastTurnLeft ge = false
  /\ GameEngine.lastTurnRight ge = false
  /\ GameEngine.lastCenterRudder ge = false.

End ClientVocabulary.

(** * Properties *)

(** ** Case analysis on the comparisons of real numbers *)

Ltac plain_real a :=
  lazymatch a with
  | context [Rgt_dec _ _] => fail
  | context [Rlt_dec _ _] => fail
  | context [Rge_dec _ _] => fail
  | context [Rle_dec _ _] => fail
  | context [Req_dec_T _ _] => fail
  | context [Rcase_abs _] => fail
  | _ => idtac
  end.

(** One comparison of the goal whose operands hold no other comparison. *)
Ltac real_case :=
  match goal with
  | |- context [Rcase_abs ?a] => plain_real a; destruct (Rcase_abs a)
  | |- context [Rle_dec ?a ?b] =>
      plain_real a; plain_real b; destruct (Rle_dec a b)
  | |- context [Rgt_dec ?a ?b] =>
      plain_real a; plain_real b; destruct (Rgt_dec a b)
  | |- context [Rlt_dec ?a ?b] =>
      plain_real a; plain_real b; destruct (Rlt_dec a b)
  | |- context [Rge_dec ?a ?b] =>
      plain_real a; plain_real b; destruct (Rge_dec a b)
  | |- context [Req_dec_T ?a ?b] =>
      plain_real a; plain_real b; destruct (Req_dec_T a b)
  end.

Ltac real_cases := unfold Rabs, Rmin, Rmax in *; repeat (real_case; cbn).

(** ** The engine telegraph and the rudder *)

Section Telegraph.
Import Ship.

Lemma ladder_rung (n : NavalSpeed) : ladder !! rung n = Some n.
Proof. destruct n; reflexivity. Qed.

Example telegraph_from_stop :
  targetSpeedSetting (increaseSpeedSetting (playerShip "Captain")) = DEAD_SLOW
  /\ targetSpeedSetting (decreaseSpeedSetting (playerShip "Captain"))
     = HALF_REVERSE.
Proof. split; reflexivity. Qed.

(** C5. [increaseSpeedSetting] moves [targetSpeedSetting] one rung up the
    ladder FULL_REVERSE, HALF_REVERSE, FULL_STOP, DEAD_SLOW, SLOW, HALF,
    FULL and leaves the ship as it is at FULL; [decreaseSpeedSetting]
    moves it one rung down and leaves the ship as it is at FULL_REVERSE;
    the ship after either call is the ship before it with at most the
    field [targetSpeedSetting] assigned. *)
Theorem speed_setting_ladder (s : Ship) :
  let up := increaseSpeedSetting s in
  let down := decreaseSpeedSetting s in
  ladder !! rung (targetSpeedSetting s) = Some (targetSpeedSetting s)
  /\ up = set_targetSpeedSetting (targetSpeedSetting up) s
  /\ down = set_targetSpeedSetting (targetSpeedSetting down) s
  /\ match targetSpeedSetting s with
     | FULL => up = s
     | _ => rung (targetSpeedSetting up) = S (rung (targetSpeedSetting s))
     end
  /\ match targetSpeedSetting s with
     | FULL_REVERSE => down = s
     | _ => S (rung (targetSpeedSetting down)) = rung (targetSpeedSetting s)
     end.
Proof.
  cbv zeta. split; [apply ladder_rung|].
  unfold increaseSpeedSetting, decreaseSpeedSetting, setSpeedSetting.
  destruct s as [p r sc v c m rs a h n t ts rd col w ht].
  destruct t; cbn; repeat split; reflexivity.
Qed.

(** C7. From every rudder setting but HARD_STARBOARD, a turn to starboard
    followed by a turn to port restores the rudder setting (and the whole
    ship); from every setting but HARD_PORT, a turn to port followed by a
    turn to starboard restores it.  Each turn moves the rudder one position
    along HARD_PORT, HALF_PORT, MIDSHIPS, HALF_STARBOARD, HARD_STARBOARD
    and stays where it is at the end of its side. *)
Theorem rudder_round_trip (s : Ship) :
  (rudderSetting s <> HARD_STARBOARD ->
     rudderSetting (turnRudderPort (turnRudderStarboard s)) = rudderSetting s
     /\ turnRudderPort (turnRudderStarboard s) = s)
  /\ (rudderSetting s <> HARD_PORT ->
     rudderSetting (turnRudderStarboard (turnRudderPort s)) = rudderSetting s
     /\ turnRudderStarboard (turnRudderPort s) = s)
  /\ rudderRung (rudderSetting (turnRudderStarboard s))
     = Nat.min (S (rudderRung (rudderSetting s))) 4
  /\ rudderRung (rudderSetting (turnRudderPort s))
     = Nat.pred (rudderRung (rudderSetting s)).
Proof.
  unfold turnRudderPort, turnRudderStarboard, setRudderSetting.
  destruct s as [p r sc v c m rs a h n t ts rd col w ht].
  destruct rd; cbn; repeat split; intros; try reflexivity; congruence.
Qed.

Lemma rudder_round_trip_witness :
  let s := playerShip "Captain" in
  rudderSetting (turnRudderPort (turnRudderStarboard s)) = rudderSetting s
  /\ rudderSetting (turnRudderStarboard (turnRudderPort s)) = rudderSetting s.
Proof.
  cbv zeta.
  destruct (rudder_round_trip (playerShip "Captain")) as (Hsp & Hps & _).
  split.
  - apply Hsp. cbn. discriminate.
  - apply Hps. cbn. discriminate.
Defined.

End Telegraph.

(** ** The speed step *)

Section Speed.
Import Ship.
Local Open Scope R_scope.

(** A tenth of a second at FULL: the player's ship gains
    [2.0 * 15.0 * 0.1 = 3] of its 60. *)
Example updateSpeed_playerShip :
  currentSpeed
    (updateSpeed (1 / 10) (setSpeedSetting FULL (playerShip "Captain")))
  = 3.
Proof.
  unfold updateSpeed. cbn. real_cases; lra.
Qed.





End Speed.

(** ** The heading *)

Section Heading.
Import Ship.
Local Open Scope R_scope.




(** Half a turn astern comes back as half a turn ahead, and a turn and a
    half loses its full turn. *)
Example wrap_half_turns :
  wrapBelow 2 (- PI) = Ok PI /\ wrapAbove 2 (PI * 3) = Ok PI.
Proof.
  pose proof PI_RGT_0 as Hpi. cbn. split.
  - destruct (Rlt_dec (- PI) 0) as [_|]; [|lra].
    destruct (Rlt_dec (- PI + PI * 2) 0) as [|_]; [lra|]. f_equal. lra.
  - destruct (Rge_dec (PI * 3) (PI * 2)) as [_|]; [|lra].
    destruct (Rge_dec (PI * 3 - PI * 2) (PI * 2)) as [|_]; [lra|]. f_equal. lra.
Qed.









End Heading.

(** ** Collisions *)

Section Collisions.
Import Ship PhysicsEngine.
Local Open Scope R_scope.







(** Ships one unit apart, with radii of 40 each, collide. *)
Example checkCollision_sternShip_bowShip :
  checkCollision sternShip bowShip = true.
Proof.
  unfold checkCollision, radius. cbn.
  replace ((0 - 1) * (0 - 1) + (0 - 0) * (0 - 0)) with 1 by lra.
  rewrite sqrt_1. real_cases; try reflexivity; lra.
Qed.


(** Two ships at the same position: the normal is [0 / 0]. *)
Example resolveCollision_same_position :
  resolveCollision sternShip sternShip = NonFinite.
Proof.
  unfold resolveCollision, jsdiv. cbn.
  replace ((0 - 0) * (0 - 0) + (0 - 0) * (0 - 0)) with 0 by lra.
  rewrite sqrt_0. destruct (Req_dec_T 0 0) as [_|]; [reflexivity|lra].
Qed.



End Collisions.

(** ** The server's game state *)

Section Players.
Import GameState.
Local Open Scope R_scope.

Lemma getAllPlayers_elem (gs : GameState) (p : Player) :
  p ∈ getAllPlayers gs <-> exists k : string, players gs !! k = Some p.
Proof.
  unfold getAllPlayers. rewrite list_elem_of_fmap. split.
  - intros [[k q] [-> Hin]]. exists k. now apply elem_of_map_to_list.
  - intros [k Hk]. exists (k, p). split; [reflexivity|].
    now apply elem_of_map_to_list.
Qed.

Lemma getAllPlayers_length (gs : GameState) :
  length (getAllPlayers gs) = size (players gs).
Proof.
  unfold getAllPlayers. rewrite length_fmap. apply length_map_to_list.
Qed.

(** Every player of a reachable state is filed under its own [id]. *)
Lemma reachable_ids (gs : GameState) :
  reachable gs ->
  forall (k : string) (p : Player), players gs !! k = Some p -> id p = k.
Proof.
  induction 1 as [|sid name rx ry gs _ IH|sid gs _ IH|sid pos gs _ IH
                  |sid rot gs _ IH]; intros k p; cbn.
  - rewrite lookup_empty. discriminate.
  - rewrite lookup_insert_Some. intros [[<- <-]|[_ Hk]]; [reflexivity|eauto].
  - rewrite lookup_delete_Some. intros [_ Hk]. eauto.
  - unfold updatePlayerPosition.
    destruct (players gs !! sid) as [q|] eqn:Hq; cbn; [|eauto].
    rewrite lookup_insert_Some. intros [[<- <-]|[_ Hk]]; cbn; eauto.
  - unfold updatePlayerRotation.
    destruct (players gs !! sid) as [q|] eqn:Hq; cbn; [|eauto].
    rewrite lookup_insert_Some. intros [[<- <-]|[_ Hk]]; cbn; eauto.
Qed.

(** C6. On every state the game can be in, [removePlayer(socketId)]
    returns [true] exactly when a player with that id was present; after
    it [getPlayer(socketId)] is [undefined], no player of
    [getAllPlayers()] has that id, and the entry of every other id is what
    it was. *)
Theorem removePlayer_forgets (gs : GameState) (socketId : string) :
  reachable gs ->
  let gs' := (removePlayer socketId gs).1 in
  let removed := (removePlayer socketId gs).2 in
  (removed = true <-> is_Some (getPlayer socketId gs))
  /\ (removed = true <->
      exists p, p ∈ getAllPlayers gs /\ id p = socketId)
  /\ getPlayer socketId gs' = None
  /\ (forall p, p ∈ getAllPlayers gs' -> id p <> socketId)
  /\ (forall other, other <> socketId ->
        getPlayer other gs' = getPlayer other gs).
Proof.
  intros Hreach. cbn. unfold getPlayer. cbn.
  pose proof (reachable_ids gs Hreach) as Hids.
  repeat split.
  - apply bool_decide_eq_true_1.
  - apply bool_decide_eq_true_2.
  - intros [p Hp]%bool_decide_eq_true_1. exists p. split; [|eauto].
    apply getAllPlayers_elem. eauto.
  - intros (p & [k Hk]%getAllPlayers_elem & Hid).
    apply bool_decide_eq_true_2. exists p.
    rewrite <- Hid, (Hids k p Hk). exact Hk.
  - apply lookup_delete_eq.
  - intros p [k Hk]%getAllPlayers_elem Hid. cbn in Hk.
    apply lookup_delete_Some in Hk as [Hne Hk].
    apply Hne. rewrite <- Hid. exact (Hids k p Hk).
  - intros other Hne. apply lookup_delete_ne. congruence.
Qed.

Lemma removePlayer_forgets_witness :
  let gs := (addPlayer "s1" "Ada" (1 / 2) (1 / 4) empty).1 in
  (removePlayer "s1" gs).2 = true
  /\ getPlayer "s1" (removePlayer "s1" gs).1 = None.
Proof.
  cbv zeta.
  assert (Hreach : reachable (addPlayer "s1" "Ada" (1 / 2) (1 / 4) empty).1)
    by (apply reach_add, reach_empty).
  destruct (removePlayer_forgets _ "s1" Hreach) as (Hret & _ & Hget & _).
  split; [|exact Hget].
  apply Hret. unfold getPlayer. cbn. rewrite lookup_insert_eq. eauto.
Defined.

(** C10. With both draws of [Math.random()] in [[0, 1)], the player that
    [addPlayer(socket, name)] creates (and files under the socket's id)
    has health 100, score 0, rotation 0, the socket's id as its [id], both
    coordinates in [[-500, 500)], and, when [name] is empty, the name
    ["Player N"] with [N] the decimal numeral of one more than the number
    of players present before the call. *)
Theorem addPlayer_fresh (socketId name : string) (rx ry : R) (gs : GameState) :
  0 <= rx < 1 ->
  0 <= ry < 1 ->
  let gs' := (addPlayer socketId name rx ry gs).1 in
  let player := (addPlayer socketId name rx ry gs).2 in
  health player = 100
  /\ score player = 0
  /\ rotation player = 0
  /\ id player = socketId
  /\ -500 <= x (position player) < 500
  /\ -500 <= y (position player) < 500
  /\ (name = "" ->
      GameState.name player
      = "Player " +:+ pretty (S (length (getAllPlayers gs))))
  /\ getPlayer socketId gs' = Some player.
Proof.
  intros Hx Hy. cbn. unfold getPlayer, defaultName. cbn.
  rewrite getAllPlayers_length, lookup_insert_eq, Nat.add_1_r.
  repeat split; try lra.
  intros ->. reflexivity.
Qed.

Lemma addPlayer_fresh_witness :
  let player := (addPlayer "s1" "" (1 / 2) (1 / 4) empty).2 in
  health player = 100 /\ GameState.name player = "Player 1".
Proof.
  cbv zeta.
  assert (Hx : 0 <= 1 / 2 < 1) by lra.
  assert (Hy : 0 <= 1 / 4 < 1) by lra.
  destruct (addPlayer_fresh "s1" "" (1 / 2) (1 / 4) empty Hx Hy)
    as (Hh & _ & _ & _ & _ & _ & Hname & _).
  split; [exact Hh|]. rewrite (Hname eq_refl). reflexivity.
Defined.

End Players.

(** ** The relay of moves and rotations *)

Section Relay.
Import GameState Server.
Local Open Scope R_scope.

Lemma recipients_broadcast (connected : list string) (sender : string)
  (e : Event) (c : string) :
  c ∈ recipients connected sender (broadcast_emit e)
  <-> c ∈ connected /\ c <> sender.
Proof.
  cbn. rewrite list_elem_of_filter. tauto.
Qed.

(** A move from a socket that never joined changes nothing; after the
    join it is stored and broadcast. *)
Example relay_before_and_after_join :
  on_player_move "s1" (mkVector2 3 4) empty = (empty, [])
  /\ (on_player_move "s1" (mkVector2 3 4)
        (on_player_join "s1" "Ada" (1 / 2) (1 / 4) empty).1).2
     = [broadcast_emit (player_moved "s1" (mkVector2 3 4))].
Proof.
  split; [reflexivity|].
  unfold on_player_move, on_player_join, updatePlayerPosition. cbn.
  rewrite lookup_insert_eq. reflexivity.
Qed.

(** C1. The handler of ['player:move'] (of ['player:rotate']) stores the
    received position (rotation) as it is in the sender's player and
    emits one broadcast, carrying the sender's socket id and the received
    value, to the connected sockets other than the sender, if and only if
    the game state holds a player under the sender's socket id; with no
    such player the game state is unchanged and nothing is emitted. *)
Theorem relay_forwards (socketId : string) (position : Vector2) (rotation : R)
  (gs : GameState) :
  let moved := on_player_move socketId position gs in
  let rotated := on_player_rotate socketId rotation gs in
  match getPlayer socketId gs with
  | Some player =>
      getPlayer socketId moved.1 = Some (set_position position player)
      /\ GameState.position <$> getPlayer socketId moved.1 = Some position
      /\ moved.2 = [broadcast_emit (player_moved socketId position)]
      /\ (forall other, other <> socketId ->
            getPlayer other moved.1 = getPlayer other gs)
      /\ getPlayer socketId rotated.1 = Some (set_rotation rotation player)
      /\ GameState.rotation <$> getPlayer socketId rotated.1 = Some rotation
      /\ rotated.2 = [broadcast_emit (player_rotated socketId rotation)]
      /\ (forall other, other <> socketId ->
            getPlayer other rotated.1 = getPlayer other gs)
  | None => moved = (gs, []) /\ rotated = (gs, [])
  end
  /\ (is_Some (getPlayer socketId gs)
      <-> moved.2 = [broadcast_emit (player_moved socketId position)])
  /\ (is_Some (getPlayer socketId gs)
      <-> rotated.2 = [broadcast_emit (player_rotated socketId rotation)])
  /\ (forall connected e c,
        c ∈ recipients connected socketId (broadcast_emit e)
        <-> c ∈ connected /\ c <> socketId).
Proof.
  cbv zeta.
  unfold on_player_move, on_player_rotate, updatePlayerPosition,
    updatePlayerRotation, getPlayer.
  refine (conj _ (conj _ (conj _
    (fun connected e c => recipients_broadcast connected socketId e c))));
    destruct (players gs !! socketId) as [player|] eqn:Hp; cbn.
  - rewrite !lookup_insert_eq. cbn.
    repeat split; try reflexivity;
      intros other Hne; apply lookup_insert_ne; congruence.
  - split; reflexivity.
  - split; [reflexivity|eauto].
  - split; [intros [q Hq]; discriminate|discriminate].
  - split; [reflexivity|eauto].
  - split; [intros [q Hq]; discriminate|discriminate].
Qed.

End Relay.

(** * Further properties of the ship *)

Section TelegraphMore.
Import Ship.

Lemma rung_increase (s : Ship) :
  rung (targetSpeedSetting (increaseSpeedSetting s))
  = Nat.min (S (rung (targetSpeedSetting s))) 6.
Proof.
  unfold increaseSpeedSetting. destruct (targetSpeedSetting s) eqn:E;
    cbn; rewrite ?E; reflexivity.
Qed.

Lemma rung_decrease (s : Ship) :
  rung (targetSpeedSetting (decreaseSpeedSetting s))
  = Nat.pred (rung (targetSpeedSetting s)).
Proof.
  unfold decreaseSpeedSetting. destruct (targetSpeedSetting s) eqn:E;
    cbn; rewrite ?E; reflexivity.
Qed.

Lemma rudderRung_starboard (s : Ship) :
  rudderRung (rudderSetting (turnRudderStarboard s))
  = Nat.min (S (rudderRung (rudderSetting s))) 4.
Proof.
  unfold turnRudderStarboard. destruct (rudderSetting s) eqn:E;
    cbn; rewrite ?E; reflexivity.
Qed.

Lemma rudderRung_port (s : Ship) :
  rudderRung (rudderSetting (turnRudderPort s))
  = Nat.pred (rudderRung (rudderSetting s)).
Proof.
  unfold turnRudderPort. destruct (rudderSetting s) eqn:E;
    cbn; rewrite ?E; reflexivity.
Qed.

(** X1. Raising the speed setting and lowering it again gives back the
    ship, unless the setting was FULL; lowering and raising gives it
    back unless the setting was FULL_REVERSE. *)
Theorem speed_setting_round_trip (s : Ship) :
  (targetSpeedSetting s <> FULL ->
     decreaseSpeedSetting (increaseSpeedSetting s) = s)
  /\ (targetSpeedSetting s <> FULL_REVERSE ->
     increaseSpeedSetting (decreaseSpeedSetting s) = s).
Proof.
  unfold increaseSpeedSetting, decreaseSpeedSetting, setSpeedSetting.
  destruct s as [p r sc v c m rs a h n t ts rd col w ht].
  destruct t; cbn; split; intros; try reflexivity; congruence.
Qed.

Lemma speed_setting_round_trip_witness :
  let s := playerShip "Captain" in
  decreaseSpeedSetting (increaseSpeedSetting s) = s
  /\ increaseSpeedSetting (decreaseSpeedSetting s) = s.
Proof.
  cbv zeta.
  destruct (speed_setting_round_trip (playerShip "Captain")) as [Hup Hdown].
  split; [apply Hup|apply Hdown]; cbn; discriminate.
Defined.

(** X2. [n] presses move the telegraph [n] rungs and stop at the end of
    the ladder: after [n] calls of [increaseSpeedSetting] the rung is
    [min (rung + n) 6], after [n] calls of [decreaseSpeedSetting] it is
    [rung - n] cut off at 0; the rudder does the same between its five
    positions.  Six presses reach FULL or FULL_REVERSE from anywhere. *)
Theorem telegraph_presses (s : Ship) (n : nat) :
  rung (targetSpeedSetting (Nat.iter n increaseSpeedSetting s))
  = Nat.min (rung (targetSpeedSetting s) + n) 6
  /\ rung (targetSpeedSetting (Nat.iter n decreaseSpeedSetting s))
     = rung (targetSpeedSetting s) - n
  /\ rudderRung (rudderSetting (Nat.iter n turnRudderStarboard s))
     = Nat.min (rudderRung (rudderSetting s) + n) 4
  /\ rudderRung (rudderSetting (Nat.iter n turnRudderPort s))
     = rudderRung (rudderSetting s) - n
  /\ targetSpeedSetting (Nat.iter (6 + n) increaseSpeedSetting s) = FULL
  /\ targetSpeedSetting (Nat.iter (6 + n) decreaseSpeedSetting s)
     = FULL_REVERSE.
Proof.
  assert (Hup : forall k,
    rung (targetSpeedSetting (Nat.iter k increaseSpeedSetting s))
    = Nat.min (rung (targetSpeedSetting s) + k) 6).
  { induction k as [|k IH].
    - cbn. destruct (targetSpeedSetting s); reflexivity.
    - rewrite Nat.iter_succ, rung_increase, IH. lia. }
  assert (Hdown : forall k,
    rung (targetSpeedSetting (Nat.iter k decreaseSpeedSetting s))
    = rung (targetSpeedSetting s) - k).
  { induction k as [|k IH].
    - cbn. lia.
    - rewrite Nat.iter_succ, rung_decrease, IH. lia. }
  repeat split.
  - apply Hup.
  - apply Hdown.
  - induction n as [|k IH].
    + cbn. destruct (rudderSetting s); reflexivity.
    + rewrite Nat.iter_succ, rudderRung_starboard, IH. lia.
  - induction n as [|k IH].
    + cbn. lia.
    + rewrite Nat.iter_succ, rudderRung_port, IH. lia.
  - specialize (Hup (6 + n)).
    destruct (targetSpeedSetting (Nat.iter (6 + n) increaseSpeedSetting s));
      destruct (targetSpeedSetting s); cbn in Hup; try reflexivity; lia.
  - specialize (Hdown (6 + n)).
    destruct (targetSpeedSetting (Nat.iter (6 + n) decreaseSpeedSetting s));
      destruct (targetSpeedSetting s); cbn in Hdown; try reflexivity; lia.
Qed.

(** X3. The HUD names are faithful: two ships show the same speed name
    only on the same speed setting and the same rudder name only on the
    same rudder setting, and neither name is ever ["UNKNOWN"]. *)
Theorem setting_names_faithful (s1 s2 : Ship) :
  (getSpeedSettingName s1 = getSpeedSettingName s2 ->
     targetSpeedSetting s1 = targetSpeedSetting s2)
  /\ (getRudderSettingName s1 = getRudderSettingName s2 ->
     rudderSetting s1 = rudderSetting s2)
  /\ getSpeedSettingName s1 <> "UNKNOWN"
  /\ getRudderSettingName s1 <> "UNKNOWN".
Proof.
  unfold getSpeedSettingName, getRudderSettingName.
  repeat split.
  - destruct (targetSpeedSetting s1), (targetSpeedSetting s2);
      intros H; try reflexivity; discriminate H.
  - destruct (rudderSetting s1), (rudderSetting s2);
      intros H; try reflexivity; discriminate H.
  - destruct (targetSpeedSetting s1); discriminate.
  - destruct (rudderSetting s1); discriminate.
Qed.

Lemma setting_names_faithful_witness :
  targetSpeedSetting (playerShip "Ada") = targetSpeedSetting (playerShip "Bob").
Proof.
  apply (setting_names_faithful (playerShip "Ada") (playerShip "Bob")).
  reflexivity.
Defined.

End TelegraphMore.

Section KinematicsMore.
Import Ship.
Local Open Scope R_scope.















(** [updateRotation] leaves alone a ship whose rudder is amidships or whose
    speed is below 5% of its [maxSpeed], whatever the fuel. *)
Lemma updateRotation_idle (fuel : nat) (deltaTime : R) (s : Ship) :
  maxSpeed s <> 0 ->
  rudderSetting s = MIDSHIPS
  \/ Rabs (currentSpeed s / maxSpeed s) < MIN_SPEED_FOR_TURNING ->
  updateRotation fuel deltaTime s = Ok s.
Proof.
  intros Hmax Hidle. unfold updateRotation, jsdiv.
  destruct (Req_dec_T (maxSpeed s) 0) as [|_]; [contradiction|]. cbn.
  destruct (Rlt_dec (Rabs (currentSpeed s / maxSpeed s)) MIN_SPEED_FOR_TURNING)
    as [|Hfast]; [reflexivity|].
  destruct Hidle as [Hmid|Hslow]; [|contradiction].
  rewrite Hmid. cbn.
  match goal with |- context [Req_dec_T ?a 0] =>
    destruct (Req_dec_T a 0) as [_|Hne]; [reflexivity|exfalso; apply Hne; lra]
  end.
Qed.

(** X8. A ship at rest with the telegraph at FULL_STOP stays where it is:
    whatever the fuel and [deltaTime], [update] returns it with the same
    position and heading, zero speed and zero velocity, and a further
    [update] returns that ship unchanged. *)
Theorem update_at_rest (fuel : nat) (deltaTime : R) (s : Ship) :
  maxSpeed s <> 0 ->
  currentSpeed s = 0 ->
  targetSpeedSetting s = FULL_STOP ->
  exists s', update fuel deltaTime s = Ok s'
    /\ position s' = position s
    /\ rotation s' = rotation s
    /\ currentSpeed s' = 0
    /\ velocity s' = mkVector2 0 0
    /\ update fuel deltaTime s' = Ok s'.
Proof.
  assert (Hstep : forall t : Ship,
    maxSpeed t <> 0 -> currentSpeed t = 0 -> targetSpeedSetting t = FULL_STOP ->
    update fuel deltaTime t
    = Ok (set_velocity (mkVector2 0 0) (set_targetSpeed 0 t))).
  { intros t Hmax Hc Hset. unfold update. cbv zeta.
    assert (Hspeed : updateSpeed deltaTime t = set_targetSpeed 0 t).
    { unfold updateSpeed. cbv zeta.
      destruct t as [p r sc v c m rs a h nm ts tsp rd col w ht].
      cbn in *. subst. cbn.
      replace (0 * m) with 0 by lra. replace (0 - 0) with 0 by lra.
      rewrite Rabs_R0. destruct (Rgt_dec 0 0.01); [lra|reflexivity]. }
    rewrite Hspeed.
    rewrite updateRotation_idle.
    - cbn. f_equal. unfold applyDrag. cbn. rewrite Hset, Hc, Rabs_R0.
      destruct (Rgt_dec 0 0.01); [lra|].
      destruct t as [p r sc v c m rs a h nm ts tsp rd col w ht].
      cbn in *. unfold set_currentSpeed, set_position, set_velocity. cbn.
      destruct p as [px py]. cbn. f_equal; f_equal; lra.
    - exact Hmax.
    - right. cbn. rewrite Hc. unfold Rdiv. rewrite Rmult_0_l, Rabs_R0.
      unfold MIN_SPEED_FOR_TURNING. lra. }
  intros Hmax Hc Hset. rewrite (Hstep s Hmax Hc Hset).
  eexists. split; [reflexivity|]. cbn. repeat split; try assumption.
  rewrite Hstep; try assumption.
  destruct s; reflexivity.
Qed.

Lemma update_at_rest_witness :
  exists s', update 0 1 (playerShip "Captain") = Ok s'
             /\ position s' = mkVector2 0 0.
Proof.
  assert (Hmax : maxSpeed (playerShip "Captain") <> 0) by (cbn; lra).
  destruct (update_at_rest 0 1 (playerShip "Captain") Hmax eq_refl eq_refl)
    as (s' & Hrun & Hpos & _).
  exists s'. split; [exact Hrun|exact Hpos].
Defined.











End KinematicsMore.

(** * Further properties of collisions *)

Section CollisionsMore.
Import Ship PhysicsEngine PhysicsEngineUpdate.
Local Open Scope R_scope.













Lemma enforceEntity_spec (entity : Ship) :
  let entity' := enforceEntity entity in
  x (position entity') = Rmax minX (Rmin maxX (x (position entity)))
  /\ y (position entity') = Rmax minY (Rmin maxY (y (position entity)))
  /\ x (velocity entity')
     = (if Rlt_dec (x (position entity)) minX then 0
        else if Rgt_dec (x (position entity)) maxX then 0
        else x (velocity entity))
  /\ y (velocity entity')
     = (if Rlt_dec (y (position entity)) minY then 0
        else if Rgt_dec (y (position entity)) maxY then 0
        else y (velocity entity))
  /\ entity' = set_velocity (velocity entity')
                 (set_position (position entity') entity).
Proof.
  cbv zeta. unfold enforceEntity, minX, maxX, minY, maxY. cbv zeta.
  destruct entity as [p r sc v c m rs a h n t ts rd col w ht].
  destruct p as [px py], v as [vx vy]. cbn.
  unfold Rmax, Rmin.
  destruct (Rlt_dec px (-5000)); [|destruct (Rgt_dec px 5000)];
    cbn; (destruct (Rlt_dec py (-5000)); [|destruct (Rgt_dec py 5000)]);
    cbn; repeat split; repeat real_case; try reflexivity; lra.
Qed.

(** X15. [enforceWorldBoundaries] brings every entity inside the world:
    each coordinate is clamped to [[-5000, 5000]], the velocity component
    of a clamped coordinate is set to zero and the other components are
    kept, nothing but position and velocity is assigned, an entity already
    inside is left as it is, and a second pass changes nothing. *)
Theorem enforceWorldBoundaries_clamps (entities : list Ship) :
  Forall withinWorld (enforceWorldBoundaries entities)
  /\ enforceWorldBoundaries (enforceWorldBoundaries entities)
     = enforceWorldBoundaries entities
  /\ length (enforceWorldBoundaries entities) = length entities
  /\ forall (i : nat) (entity : Ship), entities !! i = Some entity ->
       exists entity', enforceWorldBoundaries entities !! i = Some entity'
         /\ entity' = set_velocity (velocity entity')
                        (set_position (position entity') entity)
         /\ x (position entity') = Rmax minX (Rmin maxX (x (position entity)))
         /\ y (position entity') = Rmax minY (Rmin maxY (y (position entity)))
         /\ (minX <= x (position entity) <= maxX ->
             x (velocity entity') = x (velocity entity))
         /\ (~ minX <= x (position entity) <= maxX -> x (velocity entity') = 0)
         /\ (minY <= y (position entity) <= maxY ->
             y (velocity entity') = y (velocity entity))
         /\ (~ minY <= y (position entity) <= maxY -> y (velocity entity') = 0)
         /\ (withinWorld entity -> entity' = entity).
Proof.
  assert (Hin : forall e, withinWorld (enforceEntity e)).
  { intros e. destruct (enforceEntity_spec e) as (Hx & Hy & _).
    unfold withinWorld. rewrite Hx, Hy.
    unfold minX, maxX, minY, maxY, Rmax, Rmin. repeat real_case; lra. }
  assert (Hid : forall e, withinWorld e -> enforceEntity e = e).
  { intros e [Hx Hy]. unfold enforceEntity, minX, maxX, minY, maxY in *.
    cbv zeta.
    destruct (Rlt_dec (x (position e)) (-5000)); [lra|].
    destruct (Rgt_dec (x (position e)) 5000); [lra|].
    destruct (Rlt_dec (y (position e)) (-5000)); [lra|].
    destruct (Rgt_dec (y (position e)) 5000); [lra|]. reflexivity. }
  unfold enforceWorldBoundaries. split; [|split; [|split]].
  - apply Forall_fmap, Forall_forall. intros e _. apply Hin.
  - rewrite <- list_fmap_compose. apply list_fmap_ext.
    intros i e _. cbn. apply Hid, Hin.
  - apply length_fmap.
  - intros i e Hi. exists (enforceEntity e).
    rewrite list_lookup_fmap, Hi.
    destruct (enforceEntity_spec e) as (Hx & Hy & Hvx & Hvy & Hframe).
    split; [reflexivity|]. split; [exact Hframe|].
    split; [exact Hx|]. split; [exact Hy|].
    rewrite Hvx, Hvy. unfold minX, maxX, minY, maxY.
    repeat split; intros H; repeat real_case; try reflexivity; try lra.
    apply Hid. exact H.
Qed.

Lemma enforceWorldBoundaries_clamps_witness :
  exists entity', enforceWorldBoundaries [strayShip] !! 0%nat = Some entity'
    /\ x (velocity entity') = 0.
Proof.
  destruct (enforceWorldBoundaries_clamps [strayShip]) as (_ & _ & _ & Hat).
  destruct (Hat 0%nat strayShip eq_refl)
    as (e & Hlook & _ & _ & _ & _ & Hout & _).
  exists e. split; [exact Hlook|]. apply Hout.
  cbn. unfold minX, maxX. lra.
Defined.












End CollisionsMore.

(** * Further properties of the server *)

Section PlayersMore.
Import GameState Server.
Local Open Scope R_scope.



(** X19. Leaving twice is leaving once: after [removePlayer] a second
    [removePlayer] of the same id returns [false] and leaves the state as
    it is, and the disconnect handler announces a departure at most once. *)
Theorem removePlayer_twice (socketId : string) (gs : GameState) :
  let gone := (removePlayer socketId gs).1 in
  removePlayer socketId gone = (gone, false)
  /\ on_disconnect socketId (on_disconnect socketId gs).1
     = ((on_disconnect socketId gs).1, []).
Proof.
  cbv zeta.
  assert (Hagain : removePlayer socketId (removePlayer socketId gs).1
                   = ((removePlayer socketId gs).1, false)).
  { unfold removePlayer. cbn. rewrite lookup_delete_eq, delete_delete_eq.
    f_equal; try (apply bool_decide_eq_false_2; intros [p Hp]; discriminate). }
  split; [exact Hagain|].
  assert (Hstate :
    (on_disconnect socketId gs).1 = (removePlayer socketId gs).1).
  { unfold on_disconnect, removePlayer.
    destruct (bool_decide (is_Some (players gs !! socketId))); reflexivity. }
  rewrite Hstate. unfold on_disconnect at 1. rewrite Hagain. reflexivity.
Qed.

(** X20. Ids are unique: in every state the game can be in, no two
    players of [getAllPlayers()] carry the same id. *)
Theorem getAllPlayers_unique_ids (gs : GameState) :
  reachable gs -> NoDup (id <$> getAllPlayers gs).
Proof.
  intros Hreach. pose proof (reachable_ids gs Hreach) as Hids.
  unfold getAllPlayers. rewrite <- list_fmap_compose.
  replace ((id ∘ snd) <$> map_to_list (players gs))
    with ((map_to_list (players gs)).*1).
  - apply NoDup_fst_map_to_list.
  - apply list_fmap_ext. intros i [k p] Hi. cbn.
    symmetry. apply Hids. apply elem_of_map_to_list.
    eapply list_elem_of_lookup_2. exact Hi.
Qed.

Lemma getAllPlayers_unique_ids_witness :
  NoDup (id <$> getAllPlayers
                  (addPlayer "s2" "Bob" 0 0
                     (addPlayer "s1" "Ada" (1 / 2) (1 / 4) empty).1).1).
Proof.
  apply getAllPlayers_unique_ids. do 2 apply reach_add. apply reach_empty.
Defined.

(** X21. Updates of one player compose as assignments: of two positions
    written in a row the last one stays, a position and a rotation can be
    written in either order, an update changes neither who is in the game
    nor any other player, and of the updated player it changes the one
    field only. *)
Theorem updates_compose (socketId : string) (p1 p2 : Vector2) (r : R)
  (gs : GameState) :
  (updatePlayerPosition socketId p2 (updatePlayerPosition socketId p1 gs).1).1
  = (updatePlayerPosition socketId p2 gs).1
  /\ (updatePlayerRotation socketId r (updatePlayerPosition socketId p1 gs).1).1
     = (updatePlayerPosition socketId p1
          (updatePlayerRotation socketId r gs).1).1
  /\ getPlayer socketId (updatePlayerPosition socketId p1 gs).1
     = set_position p1 <$> getPlayer socketId gs
  /\ getPlayer socketId (updatePlayerRotation socketId r gs).1
     = set_rotation r <$> getPlayer socketId gs
  /\ (forall other, other <> socketId ->
        getPlayer other (updatePlayerPosition socketId p1 gs).1
        = getPlayer other gs
        /\ getPlayer other (updatePlayerRotation socketId r gs).1
           = getPlayer other gs)
  /\ length (getAllPlayers (updatePlayerPosition socketId p1 gs).1)
     = length (getAllPlayers gs)
  /\ length (getAllPlayers (updatePlayerRotation socketId r gs).1)
     = length (getAllPlayers gs).
Proof.
  unfold updatePlayerPosition, updatePlayerRotation, getPlayer.
  rewrite !getAllPlayers_length.
  destruct (players gs !! socketId) as [p|] eqn:Hp; cbn.
  - rewrite !lookup_insert_eq. cbn. rewrite !insert_insert_eq.
    split; [reflexivity|]. split; [reflexivity|].
    split; [reflexivity|]. split; [reflexivity|].
    split; [|split; apply map_size_insert_Some; eauto].
    intros other Hne. split; apply lookup_insert_ne; congruence.
  - rewrite !Hp. cbn. rewrite ?Hp. repeat split; reflexivity.
Qed.

(** X22. What a join announces: the handler of ['player:join'] files the
    new player under the socket's id and emits, in this order,
    ['player:joined'] with that player to the sender, ['player:new'] with
    it to the others, and ['players:list'] to the sender; the list is
    [getAllPlayers()] after the join, so it holds the newcomer and every
    player that was filed under another id. *)
Theorem on_player_join_announces (socketId name : string) (rx ry : R)
  (gs : GameState) :
  let gs' := (on_player_join socketId name rx ry gs).1 in
  exists player,
    (on_player_join socketId name rx ry gs).2
    = [emit (player_joined player); broadcast_emit (player_new player);
       emit (players_list (getAllPlayers gs'))]
    /\ id player = socketId
    /\ getPlayer socketId gs' = Some player
    /\ player ∈ getAllPlayers gs'
    /\ (forall other q, other <> socketId -> getPlayer other gs = Some q ->
          q ∈ getAllPlayers gs')
    /\ gs' = (addPlayer socketId name rx ry gs).1.
Proof.
  cbv zeta. unfold on_player_join. cbn.
  eexists. split; [reflexivity|]. unfold getPlayer. cbn.
  split; [reflexivity|]. split; [apply lookup_insert_eq|].
  split; [|split; [|reflexivity]].
  - apply getAllPlayers_elem. exists socketId. apply lookup_insert_eq.
  - intros other q Hne Hq. apply getAllPlayers_elem. exists other. cbn.
    rewrite lookup_insert_ne by congruence. exact Hq.
Qed.

Lemma serve_snoc (events : list ClientEvent) (ev : ClientEvent) :
  serve (events ++ [ev]) = (handle (serve events) ev).1.
Proof. unfold serve. rewrite foldl_app. reflexivity. Qed.

Lemma inGame_snoc (socketId : string) (events : list ClientEvent)
  (ev : ClientEvent) :
  inGame socketId (events ++ [ev])
  = match ev with
    | player_join s _ _ _ =>
        if decide (s = socketId) then true else inGame socketId events
    | disconnect s =>
        if decide (s = socketId) then false else inGame socketId events
    | _ => inGame socketId events
    end.
Proof. unfold inGame. rewrite foldl_app. reflexivity. Qed.

(** The state each handler leaves. *)
Lemma handle_state (gs : GameState) (ev : ClientEvent) :
  (handle gs ev).1
  = match ev with
    | player_join s name rx ry => (addPlayer s name rx ry gs).1
    | player_move s position => (updatePlayerPosition s position gs).1
    | player_rotate s rotation => (updatePlayerRotation s rotation gs).1
    | disconnect s => (removePlayer s gs).1
    end.
Proof.
  destruct ev as [s name rx ry|s pos|s rot|s]; cbn.
  - reflexivity.
  - unfold on_player_move.
    destruct (updatePlayerPosition s pos gs) as [g [|]]; reflexivity.
  - unfold on_player_rotate.
    destruct (updatePlayerRotation s rot gs) as [g [|]]; reflexivity.
  - unfold on_disconnect, removePlayer.
    destruct (bool_decide (is_Some (players gs !! s))); reflexivity.
Qed.

Lemma serve_reachable (events : list ClientEvent) : reachable (serve events).
Proof.
  induction events as [|ev events IH] using rev_ind; [apply reach_empty|].
  rewrite serve_snoc, handle_state.
  destruct ev; [apply reach_add|apply reach_position|apply reach_rotation
               |apply reach_remove]; exact IH.
Qed.

(** X23. The server holds a player for exactly the sockets in the game:
    after any sequence of events handled from the empty state, the state
    is one the class can reach, it has a player under a socket id if and
    only if that socket has joined and not disconnected since, and a move,
    a rotation or a disconnect of any other socket changes nothing and
    emits nothing. *)
Theorem serve_tracks_sockets (events : list ClientEvent) (socketId : string) :
  reachable (serve events)
  /\ (is_Some (getPlayer socketId (serve events))
      <-> inGame socketId events = true)
  /\ (inGame socketId events = false ->
      forall (position : Vector2) (rotation : R),
        handle (serve events) (player_move socketId position)
        = (serve events, [])
        /\ handle (serve events) (player_rotate socketId rotation)
           = (serve events, [])
        /\ handle (serve events) (disconnect socketId)
           = (serve events, [])).
Proof.
  assert (Hin : is_Some (getPlayer socketId (serve events))
                <-> inGame socketId events = true).
  { induction events as [|ev events IH] using rev_ind.
    - cbn. unfold getPlayer. cbn. rewrite lookup_empty.
      split; [intros [p Hp]; discriminate|discriminate].
    - rewrite serve_snoc, handle_state, inGame_snoc.
      unfold getPlayer in *.
      destruct ev as [s name rx ry|s pos|s rot|s]; cbn.
      + destruct (decide (s = socketId)) as [->|Hne].
        * rewrite lookup_insert_eq. split; eauto.
        * rewrite lookup_insert_ne by exact Hne. exact IH.
      + unfold updatePlayerPosition.
        destruct (players (serve events) !! s) as [q|] eqn:Hq; cbn;
          [|exact IH].
        destruct (decide (s = socketId)) as [->|Hne].
        * rewrite lookup_insert_eq. rewrite <- IH, Hq. split; eauto.
        * rewrite lookup_insert_ne by exact Hne. exact IH.
      + unfold updatePlayerRotation.
        destruct (players (serve events) !! s) as [q|] eqn:Hq; cbn;
          [|exact IH].
        destruct (decide (s = socketId)) as [->|Hne].
        * rewrite lookup_insert_eq. rewrite <- IH, Hq. split; eauto.
        * rewrite lookup_insert_ne by exact Hne. exact IH.
      + destruct (decide (s = socketId)) as [->|Hne].
        * rewrite lookup_delete_eq.
          split; [intros [p Hp]; discriminate|discriminate].
        * rewrite lookup_delete_ne by exact Hne. exact IH. }
  split; [apply serve_reachable|]. split; [exact Hin|].
  intros Hout position rotation.
  assert (Hnone : players (serve events) !! socketId = None).
  { destruct (players (serve events) !! socketId) as [p|] eqn:Hp;
      [|reflexivity].
    assert (Htrue : inGame socketId events = true)
      by (apply Hin; unfold getPlayer; rewrite Hp; eauto).
    congruence. }
  cbn. unfold on_player_move, on_player_rotate, on_disconnect,
    updatePlayerPosition, updatePlayerRotation, removePlayer.
  rewrite Hnone. cbn.
  split; [reflexivity|]. split; [reflexivity|].
  rewrite delete_id by exact Hnone. destruct (serve events); reflexivity.
Qed.

Lemma serve_tracks_sockets_witness :
  handle (serve [player_join "s1" "Ada" 0 0; disconnect "s1"])
         (player_move "s1" (mkVector2 3 4))
  = (serve [player_join "s1" "Ada" 0 0; disconnect "s1"], []).
Proof.
  destruct (serve_tracks_sockets
              [player_join "s1" "Ada" 0 0; disconnect "s1"] "s1")
    as (_ & _ & Hout).
  apply (Hout eq_refl (mkVector2 3 4) 0).
Defined.

End PlayersMore.

(** * Properties of the client *)

Section ClientMore.
Import GameState.
Local Open Scope R_scope.

(** The players a client holds after a list: what it held, overwritten
    by the entries of the list that are not its own. *)
Lemma on_list_fold (local : option string) (all : list Player) :
  forall held target : gmap string Player,
  held ⊆ target ->
  (forall q, q ∈ all -> target !! id q = Some q) ->
  let result :=
    foldl (fun m player =>
             if decide (Some (id player) <> local)
             then <[id player := player]> m else m) held all in
  held ⊆ result /\ result ⊆ target
  /\ forall q, q ∈ all -> Some (id q) <> local -> result !! id q = Some q.
Proof.
  induction all as [|p all IH]; intros held target Hsub Hall; cbn.
  - repeat split; try done. intros q Hq. now apply elem_of_nil in Hq.
  - set (held' := if decide (Some (id p) <> local)
                  then <[id p := p]> held else held).
    assert (Hp : target !! id p = Some p) by (apply Hall, list_elem_of_here).
    assert (Hsub' : held' ⊆ target).
    { unfold held'. destruct (decide _); [|exact Hsub].
      apply insert_subseteq_l; assumption. }
    assert (Hgrow : held ⊆ held').
    { unfold held'. destruct (decide _); [|done].
      apply map_subseteq_spec. intros k v Hk.
      destruct (decide (k = id p)) as [->|Hne].
      - rewrite lookup_insert_eq.
        pose proof (lookup_weaken _ _ _ _ Hk Hsub) as Ht. congruence.
      - rewrite lookup_insert_ne by congruence. exact Hk. }
    destruct (IH held' target Hsub')
      as (Hkeep & Hbelow & Hnew).
    { intros q Hq. apply Hall. now apply list_elem_of_further. }
    split; [etrans; eassumption|]. split; [exact Hbelow|].
    intros q Hq Hother. apply elem_of_cons in Hq as [->|Hq].
    + apply (lookup_weaken held'); [|exact Hkeep].
      unfold held'. destruct (decide _); [|contradiction].
      apply lookup_insert_eq.
    + now apply Hnew.
Qed.

(** X24. The join handshake leaves the newcomer with the server's
    players: when the server, in a state it can reach, handles a join, a
    client that starts from its initial fields and handles what the server
    emits to the sender (['player:joined'], then ['players:list']) ends
    with the server's map of players and with the joined socket's id as
    its local player id. *)
Theorem join_handshake (socketId name : string) (rx ry : R) (gs : GameState) :
  reachable gs ->
  let served := Server.on_player_join socketId name rx ry gs in
  let client := receiveAll NetworkManager.initial (toSender served.2) in
  NetworkManager.players client = players served.1
  /\ NetworkManager.localPlayerId client = Some socketId.
Proof.
  intros Hreach. cbv zeta. unfold Server.on_player_join. cbn.
  split; [|reflexivity].
  set (player := mkPlayer socketId _ _ _ _ _).
  set (target := <[socketId := player]> (players gs)).
  assert (Hreach' : reachable (mkGameState target))
    by (apply (reach_add socketId name rx ry gs Hreach)).
  pose proof (reachable_ids _ Hreach') as Hids. cbn in Hids.
  assert (Hall : forall q, q ∈ getAllPlayers (mkGameState target) ->
                           target !! id q = Some q).
  { intros q [k Hk]%getAllPlayers_elem. cbn in Hk.
    rewrite (Hids k q Hk). exact Hk. }
  assert (Hheld : ({[socketId := player]} : gmap string Player) ⊆ target).
  { apply map_subseteq_spec. intros k v Hk.
    apply lookup_singleton_Some in Hk as [<- <-]. apply lookup_insert_eq. }
  destruct (on_list_fold (Some socketId) (getAllPlayers (mkGameState target))
              {[socketId := player]} target Hheld Hall)
    as (Hkeep & Hbelow & Hnew).
  cbv zeta in Hkeep, Hbelow, Hnew.
  match goal with |- ?lhs = _ => set (result := lhs) in * end.
  apply map_eq. intros k.
  destruct (target !! k) as [q|] eqn:Hq.
  - destruct (decide (k = socketId)) as [->|Hne].
    + apply (lookup_weaken {[socketId := player]}); [|exact Hkeep].
      unfold target in Hq. rewrite lookup_insert_eq in Hq.
      injection Hq as <-. apply lookup_singleton_eq.
    + assert (Hid : id q = k) by (apply Hids; exact Hq).
      rewrite <- Hid. apply Hnew.
      * apply getAllPlayers_elem. exists k. exact Hq.
      * rewrite Hid. congruence.
  - destruct (result !! k) as [q|] eqn:Hr; [|reflexivity].
    pose proof (lookup_weaken _ _ _ _ Hr Hbelow). congruence.
Qed.

Lemma join_handshake_witness :
  NetworkManager.localPlayerId
    (receiveAll NetworkManager.initial
       (toSender (Server.on_player_join "s1" "Ada" 0 0 empty).2))
  = Some "s1".
Proof.
  apply (join_handshake "s1" "Ada" 0 0 empty reach_empty).
Defined.

(** X25. A relayed event keeps a client in step with the server: when
    a client holds the players the server holds and the server handles an
    event of another socket, the client that handles what the server
    broadcasts holds the server's players again, and its local player id
    is what it was. *)
Theorem relay_mirrors (nm : NetworkManager.NetworkManager) (gs : GameState)
  (ev : Server.ClientEvent) :
  NetworkManager.players nm = players gs ->
  let served := Server.handle gs ev in
  let client := receiveAll nm (toOthers served.2) in
  NetworkManager.players client = players served.1
  /\ NetworkManager.localPlayerId client = NetworkManager.localPlayerId nm.
Proof.
  intros Hsame. cbv zeta.
  destruct ev as [s name rx ry|s pos|s rot|s]; cbn.
  - unfold Server.on_player_join. cbn. rewrite Hsame. split; reflexivity.
  - unfold Server.on_player_move, updatePlayerPosition.
    destruct (players gs !! s) as [q|] eqn:Hq; cbn.
    + unfold NetworkManager.on_moved. rewrite Hsame, Hq. cbn.
      rewrite ?Hsame. split; reflexivity.
    + split; [exact Hsame|reflexivity].
  - unfold Server.on_player_rotate, updatePlayerRotation.
    destruct (players gs !! s) as [q|] eqn:Hq; cbn.
    + unfold NetworkManager.on_rotated. rewrite Hsame, Hq. cbn.
      rewrite ?Hsame. split; reflexivity.
    + split; [exact Hsame|reflexivity].
  - unfold Server.on_disconnect, removePlayer.
    destruct (players gs !! s) as [q|] eqn:Hq; cbn.
    + rewrite ?Hsame. split; reflexivity.
    + rewrite delete_id by exact Hq. split; [exact Hsame|reflexivity].
Qed.

Lemma relay_mirrors_witness :
  NetworkManager.players
    (receiveAll NetworkManager.initial
       (toOthers (Server.handle empty (Server.player_join "s1" "Ada" 0 0)).2))
  = players (Server.handle empty (Server.player_join "s1" "Ada" 0 0)).1.
Proof.
  apply (relay_mirrors NetworkManager.initial empty
           (Server.player_join "s1" "Ada" 0 0) eq_refl).
Defined.

End ClientMore.

Section EngineMore.
Import InputHandler GameEngine.
Local Open Scope R_scope.

(** After a frame the engine has seen the input, and the same input does
    nothing on the next frame. *)
Lemma handleInput_again (input : InputState) (ge : GameEngine) :
  handleInput input (handleInput input ge) = handleInput input ge.
Proof.
  unfold handleInput at 1. cbn.
  rewrite !andb_negb_r. reflexivity.
Qed.

Lemma handleInput_iter (input : InputState) (ge : GameEngine) (n : nat) :
  Nat.iter (S n) (handleInput input) ge = handleInput input ge.
Proof.
  induction n as [|n IH]; [reflexivity|].
  rewrite Nat.iter_succ, IH. apply handleInput_again.
Qed.

(** X26. Keys act on the press, not while held: a frame of
    [handleInput] with the input of the frame before changes nothing, so
    however many frames the same keys stay down the engine is the one the
    first of these frames left; a frame with no key down leaves the ship
    alone; and whatever the input, a frame assigns at most the speed
    setting and the rudder setting of the ship. *)
Theorem handleInput_held (input : InputState) (ge : GameEngine) (n : nat) :
  Nat.iter (S n) (handleInput input) ge = handleInput input ge
  /\ playerShip (handleInput released ge) = playerShip ge
  /\ playerShip (handleInput input ge)
     = Ship.set_rudderSetting
         (Ship.rudderSetting (playerShip (handleInput input ge)))
         (Ship.set_targetSpeedSetting
            (Ship.targetSpeedSetting (playerShip (handleInput input ge)))
            (playerShip ge)).
Proof.
  split; [apply handleInput_iter|]. split; [reflexivity|].
  set (settingsOnly := fun f : Ship.Ship -> Ship.Ship =>
    forall s, f s = Ship.set_rudderSetting (Ship.rudderSetting (f s))
                      (Ship.set_targetSpeedSetting
                         (Ship.targetSpeedSetting (f s)) s)).
  assert (Hspeed : settingsOnly Ship.increaseSpeedSetting
                   /\ settingsOnly Ship.decreaseSpeedSetting).
  { split; intros [p r sc v c m rs a h nm t ts rd col w ht];
      destruct t; reflexivity. }
  assert (Hrudder : settingsOnly Ship.turnRudderPort
                    /\ settingsOnly Ship.turnRudderStarboard
                    /\ settingsOnly Ship.centerRudder).
  { repeat split; intros [p r sc v c m rs a h nm t ts rd col w ht];
      destruct rd; reflexivity. }
  assert (Hid : settingsOnly (fun s => s)) by (intros []; reflexivity).
  assert (Hcomp : forall f g, settingsOnly f -> settingsOnly g ->
                              settingsOnly (fun s => g (f s))).
  { intros f g Hf Hg s. rewrite (Hg (f s)). rewrite (Hf s) at 3.
    destruct s; reflexivity. }
  destruct Hspeed as [Hinc Hdec], Hrudder as (Hport & Hstbd & Hcenter).
  assert (Hshape : exists f g, settingsOnly f /\ settingsOnly g
            /\ playerShip (handleInput input ge) = g (f (playerShip ge))).
  { unfold handleInput. cbv zeta.
    destruct ge as [s cam lastNet lu ld ll lr lc]. cbn.
    destruct (throttleUp input && negb lu); cbn;
      [|destruct (throttleDown input && negb ld); cbn];
      (destruct (turnLeft input && negb ll); cbn;
       [|destruct (turnRight input && negb lr); cbn;
         [|destruct (centerRudder input && negb lc); cbn]]);
      eauto 10. }
  destruct Hshape as (f & g & Hf & Hg & ->).
  apply (Hcomp f g Hf Hg).
Qed.

(** What a key pressed on released keys does on an engine that saw
    nothing pressed. *)
Lemma handleInput_press (code : string) (ge : GameEngine) :
  sawNothing ge ->
  playerShip (handleInput (getInput (handleKeyDown code released)) ge)
  = keyAction code (playerShip ge).
Proof.
  intros (Hu & Hd & Hl & Hr & Hc).
  unfold handleInput, getInput, handleKeyDown, updateInputState, keyAction,
    released.
  repeat (destruct (decide _) as [->|?]; cbn;
          [rewrite ?Hu, ?Hd, ?Hl, ?Hr, ?Hc; reflexivity|]).
  rewrite ?Hu, ?Hd, ?Hl, ?Hr, ?Hc. reflexivity.
Qed.

Lemma handleInput_saw (input : InputState) (ge : GameEngine) :
  lastThrottleUp (handleInput input ge) = throttleUp input
  /\ lastThrottleDown (handleInput input ge) = throttleDown input
  /\ lastTurnLeft (handleInput input ge) = turnLeft input
  /\ lastTurnRight (handleInput input ge) = turnRight input
  /\ lastCenterRudder (handleInput input ge) = centerRudder input.
Proof. repeat split; reflexivity. Qed.

Lemma handleInput_released (ge : GameEngine) :
  playerShip (handleInput released ge) = playerShip ge
  /\ sawNothing (handleInput released ge).
Proof. split; [reflexivity|repeat split; reflexivity]. Qed.

(** X27. From the keyboard to the ship: on an engine whose last frame saw
    no key, pressing W, S, A, D or Space and holding it for any number of
    frames raises or lowers the speed setting, turns the rudder to port
    or starboard or centres it exactly once; any other key does nothing;
    releasing the key for a frame and pressing it again acts a second
    time. *)
Theorem key_press_acts_once (code : string) (ge : GameEngine) (n m : nat) :
  sawNothing ge ->
  let pressed := getInput (handleKeyDown code released) in
  let idle := getInput (handleKeyUp code (handleKeyDown code released)) in
  let held := Nat.iter (S n) (handleInput pressed) ge in
  playerShip held = keyAction code (playerShip ge)
  /\ idle = released
  /\ playerShip
       (Nat.iter (S m) (handleInput pressed) (handleInput idle held))
     = keyAction code (keyAction code (playerShip ge)).
Proof.
  intros Hsaw. cbv zeta.
  assert (Hidle : getInput (handleKeyUp code (handleKeyDown code released))
                  = released).
  { unfold getInput, handleKeyUp, handleKeyDown, updateInputState, released.
    repeat (destruct (decide _); cbn; [reflexivity|]). reflexivity. }
  rewrite !handleInput_iter, Hidle.
  rewrite (handleInput_press code ge Hsaw).
  split; [reflexivity|]. split; [reflexivity|].
  destruct (handleInput_released
              (handleInput (getInput (handleKeyDown code released)) ge))
    as [Hship Hsaw'].
  rewrite (handleInput_press code _ Hsaw'), Hship.
  rewrite (handleInput_press code ge Hsaw). reflexivity.
Qed.

Lemma key_press_acts_once_witness :
  Ship.targetSpeedSetting
    (playerShip
       (Nat.iter 60 (handleInput (getInput (handleKeyDown "KeyW" released)))
          (newGameEngine "Captain")))
  = Ship.DEAD_SLOW.
Proof.
  assert (Hsaw : sawNothing (newGameEngine "Captain"))
    by (repeat split; reflexivity).
  destruct (key_press_acts_once "KeyW" (newGameEngine "Captain") 59 0 Hsaw)
    as [Hheld _].
  rewrite Hheld. reflexivity.
Defined.




End EngineMore.

(** * Properties of the vector utilities *)

Section VectorMore.
Local Open Scope R_scope.






End VectorMore.
